(** * Cliff Walking (13CliffWalk_Ch13.py): environment, episode buffer and
      the arithmetic of the two learners

    The development follows the Python source class by class.  Python
    objects that are mutated in place (the numpy position arrays) live in
    an explicit store, so that aliasing between [self.pos], the arrays
    held by the transition table and the arrays handed back to the caller
    is visible.  Exceptions are the left summand of [result]. *)

From Stdlib Require Import ZArith List Bool Lia.
From Stdlib Require Import Floats.SpecFloat.
From stdpp Require Import gmap strings list fin_maps.

Local Open Scope Z_scope.

(* ===================================================================== *)
(** ** Python runtime: exceptions, indexing *)
(* ===================================================================== *)

Inductive exn : Type :=
| IndexError
| KeyError
| TypeError
| ValueError
| ZeroDivisionError
| RuntimeError.

#[global] Instance exn_eq_dec : EqDecision exn.
Proof. solve_decision. Defined.

Definition result (A : Type) : Type := (exn + A)%type.

Definition raise {A : Type} (e : exn) : result A := inl e.
Definition ok {A : Type} (a : A) : result A := inr a.

Definition is_error {A : Type} (r : result A) : bool :=
  match r with inl _ => true | inr _ => false end.

Definition rbind {A B : Type} (r : result A) (k : A -> result B) : result B :=
  match r with
  | inl e => inl e
  | inr a => k a
  end.

(** [l[i]] for a Python list or one axis of a numpy array: indices
    [0 .. len-1] count from the front, [-len .. -1] from the back, and
    everything else raises [IndexError]. *)
Definition norm_index (len : nat) (i : Z) : option nat :=
  if (0 <=? i) && (i <? Z.of_nat len) then Some (Z.to_nat i)
  else if (- Z.of_nat len <=? i) && (i <? 0) then Some (Z.to_nat (Z.of_nat len + i))
  else None.

Definition py_index {A : Type} (l : list A) (i : Z) : result A :=
  match norm_index (length l) i with
  | Some n => match l !! n with Some x => ok x | None => raise IndexError end
  | None => raise IndexError
  end.

(** [d[k]] for a dict. *)
Definition dict_get {K : Type} `{Countable K} {V : Type} (d : gmap K V) (k : K) : result V :=
  match d !! k with
  | Some v => ok v
  | None => raise KeyError
  end.

(** [range(n)] as a list of integers. *)
Definition range (n : Z) : list Z := map Z.of_nat (seq 0 (Z.to_nat n)).

(* ===================================================================== *)
(** ** float32 tensors

    Tensor elements are IEEE binary32 values ([torch.Tensor] is a
    float32 tensor), modelled by the parameterised specification of
    [SpecFloat] at precision 24 and exponent bound 128.  A Python scalar
    that meets a float32 tensor in an arithmetic operation is converted
    to the tensor's dtype, so scalars are carried by their float32
    image; every literal of the program (0, 1, 1.0, -1., -100., 0.) is
    exactly representable.  Products of two Python scalars
    ([mask * gamma], [gamma * 0]) are float64 products in the source;
    with the factor 0 or 1 they coincide with the product of the
    float32 images as long as the image of [gamma] is finite, which the
    statements about the learners assume wherever the value of the
    product matters. *)
(* ===================================================================== *)

Module F32.

Definition prec : Z := 24.
Definition emax : Z := 128.

Definition t : Type := spec_float.

Definition add (x y : t) : t := SFadd prec emax x y.
Definition mul (x y : t) : t := SFmul prec emax x y.
(** The comparison [==] of IEEE 754: false on NaN, true on [+0] and [-0]. *)
Definition eqb (x y : t) : bool := SFeqb x y.

(** Identity of representations. *)
#[global] Instance eq_dec : EqDecision spec_float.
Proof. solve_decision. Defined.

(** Conversion of a Python [int] (or integral float literal). *)
Definition of_Z (z : Z) : t := binary_normalize prec emax z 0 false.

Definition zero : t := of_Z 0.
Definition one : t := of_Z 1.

(** Neither NaN nor an infinity. *)
Definition is_finite (x : t) : bool :=
  match x with
  | S754_zero _ | S754_finite _ _ _ => true
  | S754_infinity _ | S754_nan => false
  end.

Definition is_nan (x : t) : bool :=
  match x with S754_nan => true | _ => false end.

Definition pos_inf : t := S754_infinity false.
Definition neg_inf : t := S754_infinity true.
Definition neg_zero : t := S754_zero true.

End F32.

(* ===================================================================== *)
(** ** The store of numpy position arrays

    Every position array of the program has shape [(2,)] and integer
    dtype; it is a pair of integers held at a location of the store.
    [np.asarray([..])] and [old_pos + shift] create a new array;
    [a[k] = v] writes into an existing one.  The elements are 64-bit
    integers in numpy; every value the program stores is a coordinate
    clamped to the shape or a coordinate plus or minus one, so the
    wrap-around of the machine type is never met and the elements are
    kept in [Z]. *)
(* ===================================================================== *)

Abbreviation loc := nat (only parsing).
Abbreviation ndarray := (Z * Z)%type (only parsing).
Abbreviation store := (list (Z * Z)) (only parsing).

Definition alloc (h : store) (v : ndarray) : loc * store := (length h, h ++ [v]).

Definition deref (h : store) (l : loc) : ndarray :=
  match h !! l with Some v => v | None => (0, 0) end.

(** [a[0] = v] and [a[1] = v]. *)
Definition set0 (h : store) (l : loc) (v : Z) : store := <[l := (v, snd (deref h l))]> h.
Definition set1 (h : store) (l : loc) (v : Z) : store := <[l := (fst (deref h l), v)]> h.

(* ===================================================================== *)
(** ** class CliffWalking *)
(* ===================================================================== *)

(** One entry of the transition table: the tuple
    [(new_pos, reward, terminate)], whose first component is a reference
    to a numpy array.  The rewards are the float literals [-1.], [-100.]
    and [0.], kept by their exact integral value. *)
Definition entry : Type := (loc * Z * bool)%type.

Record CliffWalking : Type := mkCliffWalking {
  shape : Z * Z;
  pos : loc;
  cliff : list (list bool);
  actions : gmap string Z;
  action2shift : gmap Z (Z * Z);
  transmit_tensor : list (list (list entry));
  num_actions : Z;
  state_dim : Z
}.

(** [self.cliff = np.zeros(self.shape, dtype=np.bool); self.cliff[-1, 1:-1] = 1] *)
Definition build_cliff (shp : Z * Z) : list (list bool) :=
  let rows := Z.to_nat (fst shp) in
  let cols := Z.to_nat (snd shp) in
  map (fun i : nat =>
         map (fun j : nat =>
                (Nat.eqb (S i) rows) && (Nat.leb 1 j) && (Nat.ltb (S j) cols))
             (seq 0 cols))
      (seq 0 rows).

Definition the_actions : gmap string Z :=
  {[ "U"%string := 0; "D"%string := 1; "L"%string := 2; "R"%string := 3 ]}.

Definition the_action2shift : gmap Z (Z * Z) :=
  {[ 0 := (-1, 0); 1 := (1, 0); 2 := (0, -1); 3 := (0, 1) ]}.

(** [_cal_new_position_].  The fields of [self] that the method reads
    ([shape], [cliff], [action2shift]) are its first arguments, since it
    runs while the object is being constructed.
    [new_pos] is a new array ([old_pos + shift]);
    the statements that assign to [new_pos[k]], [reward] and [terminate]
    are kept in the order of the source, on local values, and the array
    is stored once at the end.  The temporary [np.asarray(old_pos)] is
    referenced by nobody after the call and is not kept in the store. *)
Definition _cal_new_position_ (shp : Z * Z) (clf : list (list bool))
    (a2s : gmap Z (Z * Z)) (old_pos : Z * Z) (action : Z) (h : store)
  : result (entry * store) :=
  rbind (dict_get a2s action) (fun shift =>
  let new0 := fst old_pos + fst shift in
  let new1 := snd old_pos + snd shift in
  let new0 := Z.max new0 0 in
  let new0 := Z.min new0 (fst shp - 1) in
  let new1 := Z.max new1 0 in
  let new1 := Z.min new1 (snd shp - 1) in
  let reward := -1 in
  let terminate := false in
  rbind (py_index clf (fst old_pos)) (fun row =>
  rbind (py_index row (snd old_pos)) (fun on_cliff =>
  let '(reward, new0, new1, terminate) :=
    if (on_cliff : bool) then (-100, fst shp - 1, 0, false)
    else (reward, new0, new1, terminate) in
  let '(reward, new0, new1, terminate) :=
    if (fst old_pos =? fst shp - 1) && (snd old_pos =? snd shp - 1)
    then (0, fst shp - 1, snd shp - 1, true)
    else (reward, new0, new1, terminate) in
  let '(l, h') := alloc h (new0, new1) in
  ok ((l, reward, terminate), h')))).

(** The three nested loops of [_build_transmit_tensor_]. *)
Fixpoint for_each {A B : Type} (f : A -> store -> result (B * store))
    (xs : list A) (h : store) : result (list B * store) :=
  match xs with
  | [] => ok ([], h)
  | x :: xs' =>
      rbind (f x h) (fun '(b, h1) =>
      rbind (for_each f xs' h1) (fun '(bs, h2) =>
      ok (b :: bs, h2)))
  end.

Definition _build_transmit_tensor_ (shp : Z * Z) (clf : list (list bool))
    (acts : gmap string Z) (a2s : gmap Z (Z * Z)) (h : store)
  : result (list (list (list entry)) * store) :=
  for_each (fun i =>
    for_each (fun j =>
      for_each (fun a => _cal_new_position_ shp clf a2s (i, j) a)
               (range (Z.of_nat (size acts))))
             (range (snd shp)))
           (range (fst shp)) h.

(** [__init__] *)
Definition CliffWalking_init (h : store) : result (CliffWalking * store) :=
  let shp := (4, 12) in
  let '(p, h1) := alloc h (fst shp - 1, 0) in
  let clf := build_cliff shp in
  rbind (_build_transmit_tensor_ shp clf the_actions the_action2shift h1)
    (fun '(table, h2) =>
  ok ({| shape := shp; pos := p; cliff := clf; actions := the_actions;
         action2shift := the_action2shift; transmit_tensor := table;
         num_actions := Z.of_nat (size the_actions); state_dim := 2 |}, h2)).

(** The argument of [take_action]: a [str] or an integer index. *)
Inductive action_arg : Type :=
| ActStr (s : string)
| ActInt (k : Z).

(** The right-hand side of the two assignments of [take_action]:
    [self.transmit_tensor[self.pos[0]][self.pos[1]][k]], where [k] is
    [self.actions[action]] for a [str] and [action] itself otherwise. *)
Definition lookup_transition (action : action_arg) (env : CliffWalking) (h : store)
  : result entry :=
  let p := deref h (pos env) in
  rbind (py_index (transmit_tensor env) (fst p)) (fun row =>
  rbind (py_index row (snd p)) (fun cell =>
  match action with
  | ActStr s => rbind (dict_get (actions env) s) (fun k => py_index cell k)
  | ActInt k => py_index cell k
  end)).

(** [take_action]: the value returned is the table's own tuple, so its
    first component is the table's array, not a copy.  The result comes
    with the environment and the store after the call. *)
Definition take_action (action : action_arg) (env : CliffWalking) (h : store)
  : result entry * (CliffWalking * store) :=
  match lookup_transition action env h with
  | inl e => (raise e, (env, h))
  | inr (new_pos, reward, terminate) =>
      let h1 := set0 h (pos env) (fst (deref h new_pos)) in
      let h2 := set1 h1 (pos env) (snd (deref h1 new_pos)) in
      (ok (new_pos, reward, terminate), (env, h2))
  end.

(** [reset]: a new array is bound to [self.pos] and returned. *)
Definition reset (env : CliffWalking) (h : store) : loc * (CliffWalking * store) :=
  let '(p, h1) := alloc h (fst (shape env) - 1, 0) in
  (p, ({| shape := shape env; pos := p; cliff := cliff env; actions := actions env;
          action2shift := action2shift env; transmit_tensor := transmit_tensor env;
          num_actions := num_actions env; state_dim := state_dim env |}, h1)).

(** The environment object together with the store it points into. *)
Definition world : Type := (CliffWalking * store)%type.

Definition initial_state : world :=
  match CliffWalking_init [] with
  | inr s => s
  | inl _ => (mkCliffWalking (0, 0) 0%nat [] ∅ ∅ [] 0 0, [])
  end.

(** [cw.transmit_tensor[i][j][a]] with the array dereferenced, as read
    by [test_cliff_warlking_by_hand]. *)
Definition table_entry (env : CliffWalking) (h : store) (i j a : Z)
  : result (ndarray * Z * bool) :=
  rbind (py_index (transmit_tensor env) i) (fun row =>
  rbind (py_index row j) (fun cell =>
  rbind (py_index cell a) (fun '(l, reward, terminate) =>
  ok (deref h l, reward, terminate)))).

(* ===================================================================== *)
(** ** Runs of the environment *)
(* ===================================================================== *)

Inductive call : Type :=
| CallTakeAction (a : action_arg)
| CallReset.

(** A call that raises leaves the state it had reached; [take_action]
    raises before it has written anything. *)
Definition step (s : world) (c : call) : world :=
  match c with
  | CallTakeAction a => snd (take_action a (fst s) (snd s))
  | CallReset => snd (reset (fst s) (snd s))
  end.

Definition run (cs : list call) (s : world) : world := fold_left step cs s.

(** The value of [self.pos]. *)
Definition cur_pos (s : world) : ndarray := deref (snd s) (pos (fst s)).

(** The environment with its position array overwritten in place
    ([cw.pos[0], cw.pos[1] = p]). *)
Definition at_cell (s : world) (p : ndarray) : world :=
  (fst s, <[pos (fst s) := p]> (snd s)).

Definition in_grid (shp : Z * Z) (p : ndarray) : bool :=
  (0 <=? fst p) && (fst p <? fst shp) && (0 <=? snd p) && (snd p <? snd shp).

(** The four actions of the data model, with their two spellings at the
    call boundary. *)
Inductive Action : Type := Up | Down | Left | Right.

Definition index_of (a : Action) : Z :=
  match a with Up => 0 | Down => 1 | Left => 2 | Right => 3 end.

Definition letter_of (a : Action) : string :=
  match a with Up => "U" | Down => "D" | Left => "L" | Right => "R" end.

(** The table with every array reference replaced by the array's
    current contents. *)
Definition table_view (s : world) : list (list (list (ndarray * Z * bool))) :=
  map (map (map (fun e : entry => (deref (snd s) (fst (fst e)), snd (fst e), snd e))))
      (transmit_tensor (fst s)).

(* ===================================================================== *)
(** ** convert_state2onehot *)
(* ===================================================================== *)

(** [np.zeros(state_dim)], one element set to [1.], converted to a
    float32 tensor and given a leading axis of length one. *)
Definition convert_state2onehot (state : ndarray) (state_dim : Z)
  : result (list (list F32.t)) :=
  if state_dim <? 0 then raise ValueError else
  let state_one_hot := replicate (Z.to_nat state_dim) F32.zero in
  match norm_index (length state_one_hot) (fst state * 5 + snd state) with
  | Some n => ok [ <[n := F32.one]> state_one_hot ]
  | None => raise IndexError
  end.

(** The position of the element [1.] in a row, when there is exactly
    one and all the others are [0.]. *)
Fixpoint hot_index (row : list F32.t) : option nat :=
  match row with
  | [] => None
  | x :: rest =>
      if bool_decide (x = F32.one)
      then (if forallb (fun y => bool_decide (y = F32.zero)) rest then Some 0%nat else None)
      else if bool_decide (x = F32.zero) then option_map S (hot_index rest)
      else None
  end.

(* ===================================================================== *)
(** ** class ReplayPool *)
(* ===================================================================== *)

Module ReplayPool.

(** The namedtuple [Transition]; its fields are untyped in the source
    ([pop_all] builds one whose fields are tuples). *)
Record Transition (S A R M : Type) : Type := mkTransition {
  state : S;
  next_state : S;
  action : A;
  reward : R;
  mask : M
}.
Arguments mkTransition {S A R M}.
Arguments state {S A R M}.
Arguments next_state {S A R M}.
Arguments action {S A R M}.
Arguments reward {S A R M}.
Arguments mask {S A R M}.

Section Pool.
Context {S A R M : Type}.

(** [self.memory], a deque, oldest transition first. *)
Record t : Type := mkPool { memory : list (Transition S A R M) }.

Definition __init__ : t := mkPool [].

Definition push (p : t) (st nst : S) (a : A) (r : R) (m : M) : t :=
  mkPool (memory p ++ [mkTransition st nst a r m]).

(** [memory = self.memory], then the namedtuple constructor applied
    to the unpacked [zip] of the unpacked [memory], which transposes
    the rows into five columns.  With an empty deque [zip] yields
    nothing and the constructor is called without arguments.  The
    second component is the pool after the call. *)
Definition pop_all (p : t)
  : result (Transition (list S) (list A) (list R) (list M)) * t :=
  let mem := memory p in
  match mem with
  | [] => (raise TypeError, p)
  | _ :: _ =>
      (ok (mkTransition (map state mem) (map next_state mem)
                        (map action mem) (map reward mem) (map mask mem)), p)
  end.

Definition reset (p : t) : t := mkPool [].

Definition __len__ (p : t) : nat := length (memory p).
End Pool.
Arguments t : clear implicits.

End ReplayPool.

(* ===================================================================== *)
(** ** torch.nn, as far as construction goes

    The constructors of the two networks call [nn.Linear] and
    [nn.init.xavier_uniform_], which belong to PyTorch and not to this
    program.  They are an interface here: a layer is known by its two
    sizes (its random weights are not represented), and each call
    returns or raises. *)
(* ===================================================================== *)

Record Linear : Type := mkLinear { in_features : Z; out_features : Z }.

Class TorchNN : Type := {
  nn_Linear : Z -> Z -> result Linear;
  xavier_uniform_ : Linear -> result unit
}.

(** The behaviour of current PyTorch.  [nn.Linear(i, o)] creates its
    weight with [torch.empty((o, i))]: a negative size raises
    [RuntimeError], a zero size gives an empty weight (initialising a
    zero-element tensor is a no-op with a warning).
    [xavier_uniform_] divides by [fan_in + fan_out]. *)
Definition pytorch : TorchNN := {|
  nn_Linear := fun i o =>
    if (i <? 0) || (o <? 0) then raise RuntimeError else ok (mkLinear i o);
  xavier_uniform_ := fun m =>
    if in_features m + out_features m =? 0 then raise ZeroDivisionError else ok tt
|}.

(* ===================================================================== *)
(** ** class REINFORCE *)
(* ===================================================================== *)

Module REINFORCE.

Record model : Type := mkModel {
  input_dim : Z;
  output_dim : Z;
  fc1 : Linear;
  fc2 : Linear
}.

Definition __init__ {T : TorchNN} (input_dim output_dim hidden_dim : Z) : result model :=
  rbind (nn_Linear input_dim hidden_dim) (fun fc1 =>
  rbind (nn_Linear hidden_dim output_dim) (fun fc2 =>
  rbind (xavier_uniform_ fc1) (fun _ =>
  rbind (xavier_uniform_ fc2) (fun _ =>
  ok (mkModel input_dim output_dim fc1 fc2))))).

(** The loop of [train_model] that fills [returns]: [n] is the number
    of indices still to visit, so the index handled is [n - 1]. *)
Fixpoint returns_loop (n : nat) (gamma : F32.t) (rewards masks : list F32.t)
    (running_return : F32.t) (returns : list F32.t) : result (list F32.t) :=
  match n with
  | O => ok returns
  | Datatypes.S t =>
      rbind (py_index rewards (Z.of_nat t)) (fun r =>
      rbind (py_index masks (Z.of_nat t)) (fun m =>
      let running_return := F32.add r (F32.mul (F32.mul gamma running_return) m) in
      returns_loop t gamma rewards masks running_return (<[t := running_return]> returns)))
  end.

(** [returns = torch.zeros_like(rewards); running_return = 0; for t in
    reversed(range(len(rewards))): ...] *)
Definition train_model_returns (gamma : F32.t) (rewards masks : list F32.t)
  : result (list F32.t) :=
  let returns := replicate (length rewards) F32.zero in
  returns_loop (length rewards) gamma rewards masks F32.zero returns.

(** The recurrence in the words of the specification,
    [return[t] = reward[t] + gamma * return[t+1] * mask[t]], with 0 for
    the return past the last step; by recursion on the episode, to be
    compared with the loop above. *)
Fixpoint spec_returns (gamma : F32.t) (rewards masks : list F32.t) : list F32.t :=
  match rewards, masks with
  | r :: rewards', m :: masks' =>
      let rest := spec_returns gamma rewards' masks' in
      F32.add r (F32.mul (F32.mul gamma (hd F32.zero rest)) m) :: rest
  | _, _ => []
  end.

End REINFORCE.

(* ===================================================================== *)
(** ** class ActorCritic *)
(* ===================================================================== *)

Module ActorCritic.

Record model : Type := mkModel {
  input_dim : Z;
  output_dim : Z;
  fc_hidden : Linear;
  fc_actor : Linear;
  fc_critic : Linear
}.

Definition __init__ {T : TorchNN} (input_dim output_dim hidden_dim : Z) : result model :=
  rbind (nn_Linear input_dim hidden_dim) (fun fc_hidden =>
  rbind (nn_Linear hidden_dim output_dim) (fun fc_actor =>
  rbind (nn_Linear hidden_dim 1) (fun fc_critic =>
  rbind (xavier_uniform_ fc_hidden) (fun _ =>
  rbind (xavier_uniform_ fc_actor) (fun _ =>
  rbind (xavier_uniform_ fc_critic) (fun _ =>
  ok (mkModel input_dim output_dim fc_hidden fc_actor fc_critic))))))).

(** [target_plus_value = reward + mask * gamma * next_value[0]] of
    [train_model]; [mask] is the Python int 0 or 1. *)
Definition target_plus_value (reward : F32.t) (mask : Z) (gamma next_value0 : F32.t)
  : F32.t :=
  F32.add reward (F32.mul (F32.mul (F32.of_Z mask) gamma) next_value0).

End ActorCritic.

(* ===================================================================== *)
(** ** Predicates used by the statements *)
(* ===================================================================== *)

Definition entry_loc (e : entry) : loc := fst (fst e).

(** A check applied to every entry of a table. *)
Definition all_entries (f : entry -> bool) (table : list (list (list entry))) : bool :=
  forallb (forallb (forallb f)) table.

(** The array of an entry is one of the 192 arrays allocated while the
    table was built, and it holds a cell of the grid. *)
Definition entry_sound (h : store) (e : entry) : bool :=
  (1 <=? entry_loc e)%nat && (entry_loc e <=? 192)%nat
  && in_grid (4, 12) (deref h (entry_loc e)).

(** What every run of the environment preserves: the table object and
    the arrays it refers to are those of the construction, and
    [self.pos] is an allocated array of its own holding a cell of the
    grid. *)
Record Inv (s : world) : Prop := mkInv {
  inv_table : transmit_tensor (fst s) = transmit_tensor (fst initial_state);
  inv_actions : actions (fst s) = the_actions;
  inv_shape : shape (fst s) = (4, 12);
  inv_store : forall l : loc, (1 <= l <= 192)%nat -> snd s !! l = snd initial_state !! l;
  inv_pos : (pos (fst s) = 0 \/ 193 <= pos (fst s))%nat;
  inv_alloc : (pos (fst s) < length (snd s))%nat;
  inv_len : (193 <= length (snd s))%nat;
  inv_grid : in_grid (4, 12) (cur_pos s) = true
}.

(** [take_action act] succeeds in [s]; the array it returns and the
    position it leaves in [self.pos] both hold [p], and the reward and
    the terminal flag returned are [rw] and [t]. *)
Definition take_action_yields (s : world) (act : action_arg)
    (p : ndarray) (rw : Z) (t : bool) : Prop :=
  exists l : loc,
    fst (take_action act (fst s) (snd s)) = ok (l, rw, t)
    /\ deref (snd (snd (take_action act (fst s) (snd s)))) l = p
    /\ cur_pos (snd (take_action act (fst s) (snd s))) = p.

Definition all_actions : list Action := [Up; Down; Left; Right].

(** Boolean forms of the statements about single table entries, for
    evaluation over the whole grid. *)
Definition entry_is (s : world) (i j : Z) (a : Action) (v : ndarray * Z * bool) : bool :=
  bool_decide (table_entry (fst s) (snd s) i j (index_of a) = inr v).

Definition entry_in_grid (s : world) (i j : Z) (a : Action) : bool :=
  match table_entry (fst s) (snd s) i j (index_of a) with
  | inr (p, _, _) => in_grid (4, 12) p
  | inl _ => false
  end.

(* ===================================================================== *)
(** ** One step in closed form

    What a step does, written as a function of the cell and the action
    alone, without table, store or exceptions; the table-driven
    [take_action] is compared with it below. *)
(* ===================================================================== *)

Definition shift_of (a : Action) : Z * Z :=
  match a with Up => (-1, 0) | Down => (1, 0) | Left => (0, -1) | Right => (0, 1) end.

Definition is_goal (p : ndarray) : bool := (fst p =? 3) && (snd p =? 11).

Definition is_cliff (p : ndarray) : bool :=
  (fst p =? 3) && (1 <=? snd p) && (snd p <=? 10).

Definition clamp (lo hi x : Z) : Z := Z.min (Z.max x lo) hi.

Definition step_rule (p : ndarray) (a : Action) : ndarray * Z * bool :=
  if is_goal p then ((3, 11), 0, true)
  else if is_cliff p then ((3, 0), -100, false)
  else ((clamp 0 3 (fst p + fst (shift_of a)), clamp 0 11 (snd p + snd (shift_of a))),
        -1, false).

(** The outputs of successive steps from [p]. *)
Fixpoint rule_trace (p : ndarray) (acts : list Action) : list (ndarray * Z * bool) :=
  match acts with
  | [] => []
  | a :: acts' => step_rule p a :: rule_trace (fst (fst (step_rule p a))) acts'
  end.

(** The cell reached from [p] by the steps [acts]. *)
Definition rule_final (p : ndarray) (acts : list Action) : ndarray :=
  fold_left (fun q a => fst (fst (step_rule q a))) acts p.

(** What the caller of [take_action] sees: the returned tuple, with the
    returned array read at the moment of the return. *)
Definition observe (r : result entry * world) : result (ndarray * Z * bool) :=
  match fst r with
  | inl e => inl e
  | inr (l, rw, t) => inr (deref (snd (snd r)) l, rw, t)
  end.

(** The observations of successive [take_action] calls. *)
Fixpoint env_trace (s : world) (acts : list action_arg)
  : list (result (ndarray * Z * bool)) :=
  match acts with
  | [] => []
  | act :: acts' =>
      observe (take_action act (fst s) (snd s))
      :: env_trace (snd (take_action act (fst s) (snd s))) acts'
  end.

Definition int_actions (acts : list Action) : list action_arg :=
  map (fun a => ActInt (index_of a)) acts.

Definition rewards_of (tr : list (ndarray * Z * bool)) : list Z :=
  map (fun o => snd (fst o)) tr.

Definition sum_Z (l : list Z) : Z := fold_right Z.add 0 l.

(** The least cost that remains to be paid from a cell before the step
    that returns the terminal flag: the walk around the cliff from the
    start, the fall and the walk again from a cliff cell. *)
Definition cost_to_go (p : ndarray) : Z :=
  if is_goal p then 0
  else if is_cliff p then 113
  else if (fst p =? 3) && (snd p =? 0) then 13
  else (3 - fst p) + (11 - snd p).

(** The path along the upper edge of the cliff, then one more call on
    the goal. *)
Definition safe_path : list Action :=
  [Up] ++ replicate 11 Right ++ [Down; Down].

(** The least number of calls that remain from a cell before the call
    that returns the terminal flag. *)
Definition calls_to_go (p : ndarray) : Z :=
  if is_goal p then 0
  else if is_cliff p then 14
  else if (fst p =? 3) && (snd p =? 0) then 13
  else (3 - fst p) + (11 - snd p).

(** The walk that ends on the cliff cell of column [c]. *)
Definition path_onto_cliff (c : Z) : list Action :=
  [Up] ++ replicate (Z.to_nat c) Right ++ [Down].

(* ===================================================================== *)
(** ** Reading a drained pool back *)
(* ===================================================================== *)

Section Rows.
Context {S A R M : Type}.

(** The columns of a transposed namedtuple, read row by row; the
    inverse of what [pop_all] does to the deque. *)
Fixpoint rows_of (ss nss : list S) (acs : list A) (rs : list R) (ms : list M)
  : list (ReplayPool.Transition S A R M) :=
  match ss, nss, acs, rs, ms with
  | s :: ss', ns :: nss', a :: acs', r :: rs', m :: ms' =>
      ReplayPool.mkTransition s ns a r m :: rows_of ss' nss' acs' rs' ms'
  | _, _, _, _, _ => []
  end.

Definition rows (tr : ReplayPool.Transition (list S) (list A) (list R) (list M))
  : list (ReplayPool.Transition S A R M) :=
  rows_of (ReplayPool.state tr) (ReplayPool.next_state tr) (ReplayPool.action tr)
          (ReplayPool.reward tr) (ReplayPool.mask tr).

(** Successive calls of [push], one per transition. *)
Definition push_all (p : ReplayPool.t S A R M) (ts : list (ReplayPool.Transition S A R M))
  : ReplayPool.t S A R M :=
  fold_left (fun q t =>
               ReplayPool.push q (ReplayPool.state t) (ReplayPool.next_state t)
                               (ReplayPool.action t) (ReplayPool.reward t)
                               (ReplayPool.mask t))
            ts p.

End Rows.

(** The index that [convert_state2onehot] computes. *)
Definition flat_index (state : ndarray) : Z := fst state * 5 + snd state.

(** A value of a 64-bit signed integer array.  The position arrays are
    such arrays; where a statement ranges over arbitrary elements, it
    asks that they and the intermediate results of the arithmetic done
    on them lie in this range, so that nothing wraps around. *)
Definition fits_int64 (z : Z) : Prop := - 2 ^ 63 <= z < 2 ^ 63.

(* ===================================================================== *)
(** ** train_REINFORCE: the creation of an episode

    The loop [while not terminate] of [train_REINFORCE], from
    [state = env.reset()] to [state = next_state].  The actions that
    [model.get_action] samples are a parameter, the list of the indices
    it returns call after call; the loop stops at the terminal flag or,
    still running, when the list is used up. *)
(* ===================================================================== *)

Abbreviation episode_pool :=
  (ReplayPool.t (list (list F32.t)) (list F32.t) Z Z) (only parsing).

(** [action_one_hot = torch.zeros(output_dim); action_one_hot[action] = 1];
    [output_dim] is the module-level name that the main block sets to
    [cw.num_actions]. *)
Definition action_one_hot (output_dim action : Z) : result (list F32.t) :=
  if output_dim <? 0 then raise RuntimeError else
  let zeros := replicate (Z.to_nat output_dim) F32.zero in
  match norm_index (length zeros) action with
  | Some n => ok (<[n := F32.one]> zeros)
  | None => raise IndexError
  end.

(** The body of the loop and its repetition.  [state] is a reference:
    the array returned by [reset] at first, that is the array of
    [self.pos], and the table's arrays afterwards.  The result is the
    terminal flag reached, the environment with the store, and the
    pool. *)
Fixpoint episode_loop (sampled : list Z) (state_dim output_dim : Z)
    (state : loc) (w : world) (pool : episode_pool)
  : result (bool * world * episode_pool) :=
  match sampled with
  | [] => ok (false, w, pool)
  | action :: sampled' =>
      rbind (convert_state2onehot (deref (snd w) state) state_dim) (fun state_one_hot =>
      rbind (fst (take_action (ActInt action) (fst w) (snd w)))
        (fun '(next_state, reward, terminate) =>
      let w' := snd (take_action (ActInt action) (fst w) (snd w)) in
      let mask := if (terminate : bool) then 0 else 1 in
      rbind (convert_state2onehot (deref (snd w') next_state) state_dim)
        (fun next_state_one_hot =>
      rbind (action_one_hot output_dim action) (fun action_one_hot =>
      let pool' := ReplayPool.push pool state_one_hot next_state_one_hot
                                   action_one_hot reward mask in
      if terminate then ok (true, w', pool')
      else episode_loop sampled' state_dim output_dim next_state w' pool'))))
  end.

(** [state = env.reset(); terminate = False; replay_pool.reset()] and
    the loop. *)
Definition create_episode (sampled : list Z) (state_shape : Z * Z) (output_dim : Z)
    (w : world) (pool : episode_pool) : result (bool * world * episode_pool) :=
  episode_loop sampled (fst state_shape * snd state_shape) output_dim
    (fst (reset (fst w) (snd w))) (snd (reset (fst w) (snd w)))
    (ReplayPool.reset pool).

(** The tensors of a cell and of an action. *)
Definition encode (p : ndarray) : list (list F32.t) :=
  [ <[Z.to_nat (flat_index p) := F32.one]> (replicate 48 F32.zero) ].

Definition encode_action (a : Action) : list F32.t :=
  <[Z.to_nat (index_of a) := F32.one]> (replicate 4 F32.zero).

(** The transitions of an episode in closed form: one per step from
    [p], up to and including the first step that returns the terminal
    flag. *)
Fixpoint episode_rows (p : ndarray) (acts : list Action)
  : list (ReplayPool.Transition (list (list F32.t)) (list F32.t) Z Z) :=
  match acts with
  | [] => []
  | a :: acts' =>
      ReplayPool.mkTransition (encode p) (encode (fst (fst (step_rule p a))))
        (encode_action a) (snd (fst (step_rule p a)))
        (if snd (step_rule p a) then 0 else 1)
      :: (if snd (step_rule p a) then []
          else episode_rows (fst (fst (step_rule p a))) acts')
  end.

Fixpoint episode_ends (p : ndarray) (acts : list Action) : bool :=
  match acts with
  | [] => false
  | a :: acts' =>
      if snd (step_rule p a) then true
      else episode_ends (fst (fst (step_rule p a))) acts'
  end.

(* ===================================================================== *)
(** ** train_ActorCritic: the target of one step

    [next_state, reward, terminate = env.take_action(action)],
    [mask = 0 if terminate else 1], and the [target_plus_value] that
    [train_model] computes from the transition; [o] is what
    [take_action] returned and [next_value0] the value the network
    gives for the next state. *)
(* ===================================================================== *)

Definition step_target (o : ndarray * Z * bool) (gamma next_value0 : F32.t) : F32.t :=
  let reward := snd (fst o) in
  let terminate := snd o in
  let mask := if terminate then 0 else 1 in
  ActorCritic.target_plus_value (F32.of_Z reward) mask gamma next_value0.

(** The walk from the start to the goal, without the call made on the
    goal. *)
Definition path_to_goal : list Action := [Up] ++ replicate 11 Right ++ [Down].

(* ===================================================================== *)
(** * Properties *)
(* ===================================================================== *)

(** ** Indexing *)

Lemma norm_index_lt (len : nat) (i : Z) (n : nat) :
  norm_index len i = Some n -> (n < len)%nat.
Proof.
  unfold norm_index.
  destruct (0 <=? i) eqn:H0, (i <? Z.of_nat len) eqn:H1; simpl;
    try destruct (- Z.of_nat len <=? i) eqn:H2; try destruct (i <? 0) eqn:H3;
    simpl; intros [= <-]; lia.
Qed.

Lemma norm_index_nonneg (len : nat) (i : Z) :
  0 <= i < Z.of_nat len -> norm_index len i = Some (Z.to_nat i).
Proof.
  intros [Hlo Hhi]. unfold norm_index.
  apply Z.leb_le in Hlo. apply Z.ltb_lt in Hhi. now rewrite Hlo, Hhi.
Qed.

Lemma py_index_elem {A : Type} (l : list A) (i : Z) (x : A) :
  py_index l i = inr x -> x ∈ l.
Proof.
  unfold py_index.
  destruct (norm_index (length l) i) as [n|]; [|discriminate].
  destruct (l !! n) as [y|] eqn:Hy; [|discriminate].
  intros [= <-]. apply list_elem_of_lookup. eauto.
Qed.

(** ** The store *)

Lemma deref_insert_ne (h : store) (l l' : loc) (v : ndarray) :
  l <> l' -> deref (<[l := v]> h) l' = deref h l'.
Proof. intros Hne. unfold deref. now rewrite list_lookup_insert_ne. Qed.

Lemma deref_insert_eq (h : store) (l : loc) (v : ndarray) :
  (l < length h)%nat -> deref (<[l := v]> h) l = v.
Proof. intros Hlt. unfold deref. now rewrite list_lookup_insert_eq. Qed.

(** The two element writes of [take_action] amount to one write of the
    pair read through [src], whenever [src] is another array. *)
Lemma two_writes (h : store) (p src : loc) :
  p <> src ->
  set1 (set0 h p (fst (deref h src))) p (snd (deref (set0 h p (fst (deref h src))) src))
  = <[p := deref h src]> h.
Proof.
  intros Hne. unfold set1, set0.
  rewrite (deref_insert_ne h p src) by assumption.
  destruct (Nat.lt_ge_cases p (length h)) as [Hlt|Hge].
  - rewrite deref_insert_eq by assumption. simpl.
    rewrite list_insert_insert_eq. now destruct (deref h src).
  - now rewrite !list_insert_ge by (rewrite ?length_insert; lia).
Qed.

(** Whatever the arrays involved, [take_action] writes at most the cell
    of [self.pos]. *)
Lemma two_writes_frame (h : store) (p src : loc) (x : Z) :
  let h1 := set0 h p x in
  let h2 := set1 h1 p (snd (deref h1 src)) in
  h2 = <[p := deref h2 p]> h.
Proof.
  intros h1 h2. subst h1 h2. unfold set1, set0.
  destruct (Nat.lt_ge_cases p (length h)) as [Hlt|Hge].
  - rewrite list_insert_insert_eq.
    rewrite (deref_insert_eq h p) by assumption.
    now rewrite deref_insert_eq by assumption.
  - now rewrite !list_insert_ge by (rewrite ?length_insert; lia).
Qed.

(** ** The transition table built by the constructor *)

Lemma CliffWalking_init_ok : CliffWalking_init [] = inr initial_state.
Proof. vm_compute. reflexivity. Qed.

Lemma all_entries_elem (f : entry -> bool) (table : list (list (list entry)))
    (row : list (list entry)) (cell : list entry) (e : entry) :
  all_entries f table = true ->
  row ∈ table -> cell ∈ row -> e ∈ cell -> f e = true.
Proof.
  unfold all_entries. intros Hall Hrow Hcell He.
  rewrite forallb_forall in Hall.
  apply list_elem_of_In, Hall in Hrow. rewrite forallb_forall in Hrow.
  apply list_elem_of_In, Hrow in Hcell. rewrite forallb_forall in Hcell.
  now apply list_elem_of_In, Hcell in He.
Qed.

Lemma table0_sound :
  all_entries (entry_sound (snd initial_state)) (transmit_tensor (fst initial_state)) = true.
Proof. vm_compute. reflexivity. Qed.

Lemma entry_sound_inv (h : store) (e : entry) :
  entry_sound h e = true ->
  (1 <= entry_loc e <= 192)%nat /\ in_grid (4, 12) (deref h (entry_loc e)) = true.
Proof.
  unfold entry_sound. rewrite !andb_true_iff.
  intros [[H1 H2] H3]. apply Nat.leb_le in H1, H2. auto.
Qed.

(** Looking up three indices in the constructed table either raises or
    gives a sound entry. *)
Lemma table0_lookup (i j k : Z) (row : list (list entry)) (cell : list entry) (e : entry) :
  py_index (transmit_tensor (fst initial_state)) i = inr row ->
  py_index row j = inr cell ->
  py_index cell k = inr e ->
  (1 <= entry_loc e <= 192)%nat
  /\ in_grid (4, 12) (deref (snd initial_state) (entry_loc e)) = true.
Proof.
  intros Hi Hj Hk. apply entry_sound_inv.
  eapply all_entries_elem; eauto using table0_sound, py_index_elem.
Qed.

(** ** The invariant *)

Lemma deref_table_loc (s : world) (l : loc) :
  Inv s -> (1 <= l <= 192)%nat -> deref (snd s) l = deref (snd initial_state) l.
Proof. intros HI Hl. unfold deref. now rewrite (inv_store s HI l Hl). Qed.

Lemma Inv_initial : Inv initial_state.
Proof.
  split; try (vm_compute; reflexivity); try (vm_compute; lia).
Qed.

(** In a state that satisfies the invariant, the entry found by
    [take_action] is one of the constructed table. *)
Lemma lookup_transition_sound (act : action_arg) (s : world) (en : entry) :
  Inv s ->
  lookup_transition act (fst s) (snd s) = inr en ->
  (1 <= entry_loc en <= 192)%nat
  /\ in_grid (4, 12) (deref (snd initial_state) (entry_loc en)) = true.
Proof.
  intros HI. unfold lookup_transition. rewrite (inv_table _ HI).
  destruct (py_index _ (fst _)) as [e|row] eqn:Hrow; simpl; [discriminate|].
  destruct (py_index row _) as [e|cell] eqn:Hcell; simpl; [discriminate|].
  destruct act as [str|k].
  - destruct (dict_get _ str) as [e|k]; simpl; [discriminate|].
    intros Hen. eapply table0_lookup; eauto.
  - intros Hen. eapply table0_lookup; eauto.
Qed.

(** The two outcomes of [take_action] in a state that satisfies the
    invariant: it raises and nothing has changed, or it returns an entry
    of the table and has copied that entry's array into [self.pos]. *)
Lemma take_action_cases (act : action_arg) (s : world) :
  Inv s ->
  (exists e : exn, lookup_transition act (fst s) (snd s) = inl e
                   /\ take_action act (fst s) (snd s) = (inl e, s))
  \/ (exists en : entry,
        lookup_transition act (fst s) (snd s) = inr en
        /\ (1 <= entry_loc en <= 192)%nat
        /\ in_grid (4, 12) (deref (snd initial_state) (entry_loc en)) = true
        /\ take_action act (fst s) (snd s)
           = (inr en, (fst s, <[pos (fst s) := deref (snd initial_state) (entry_loc en)]> (snd s)))).
Proof.
  intros HI. unfold take_action.
  destruct (lookup_transition act (fst s) (snd s)) as [e|en] eqn:Hlk.
  - left. exists e. split; [reflexivity|]. now destruct s.
  - right. exists en.
    destruct (lookup_transition_sound act s en HI Hlk) as [Hl Hg].
    repeat split; try assumption; try lia.
    destruct en as [[l rw] t]. unfold entry_loc in *. simpl in *.
    rewrite two_writes.
    + now rewrite (deref_table_loc s l HI) by lia.
    + destruct (inv_pos _ HI) as [Hp|Hp]; lia.
Qed.

Lemma Inv_write (s : world) (p : ndarray) :
  Inv s -> in_grid (4, 12) p = true -> Inv (fst s, <[pos (fst s) := p]> (snd s)).
Proof.
  intros HI Hp. destruct HI as [Ht Ha Hs Hst Hpos Hal Hlen Hg].
  split; simpl; try assumption.
  - intros l Hl. rewrite list_lookup_insert_ne; [now apply Hst|].
    destruct Hpos; lia.
  - now rewrite length_insert.
  - now rewrite length_insert.
  - unfold cur_pos. simpl. now rewrite deref_insert_eq.
Qed.

Lemma Inv_take_action (act : action_arg) (s : world) :
  Inv s -> Inv (snd (take_action act (fst s) (snd s))).
Proof.
  intros HI.
  destruct (take_action_cases act s HI) as [(e & _ & ->)|(en & _ & _ & Hg & ->)];
    simpl; [assumption|].
  now apply Inv_write.
Qed.

Lemma Inv_reset (s : world) : Inv s -> Inv (snd (reset (fst s) (snd s))).
Proof.
  intros HI. destruct HI as [Ht Ha Hs Hst Hpos Hal Hlen Hg].
  unfold reset, alloc. split; simpl; try assumption.
  - intros l Hl. rewrite lookup_app_l; [now apply Hst|lia].
  - right. lia.
  - rewrite length_app. simpl. lia.
  - rewrite length_app. simpl. lia.
  - unfold cur_pos, deref. simpl.
    rewrite list_lookup_middle by reflexivity. now rewrite Hs.
Qed.

Lemma Inv_step (s : world) (c : call) : Inv s -> Inv (step s c).
Proof. destruct c; simpl; [apply Inv_take_action | apply Inv_reset]. Qed.

Lemma Inv_run (cs : list call) (s : world) : Inv s -> Inv (run cs s).
Proof.
  revert s. induction cs as [|c cs IH]; intros s HI; simpl; [assumption|].
  apply IH. now apply Inv_step.
Qed.

Lemma Inv_at_cell (s : world) (p : ndarray) :
  Inv s -> in_grid (4, 12) p = true -> Inv (at_cell s p).
Proof. apply Inv_write. Qed.

(** ** Reading the table *)

Lemma forall_range (f : Z -> bool) (n : Z) :
  forallb f (range n) = true -> forall i, 0 <= i < n -> f i = true.
Proof.
  rewrite forallb_forall. intros Hall i Hi. apply Hall.
  unfold range. apply in_map_iff. exists (Z.to_nat i).
  split; [lia | apply in_seq; lia].
Qed.

Lemma forall_actions (f : Action -> bool) :
  forallb f all_actions = true -> forall a, f a = true.
Proof.
  simpl. rewrite !andb_true_iff. intros (HU & HD & HL & HR & _) [ | | | ]; assumption.
Qed.

(** The arrays of the table are never written, so an entry read in any
    state that satisfies the invariant is the entry that was built. *)
Lemma table_entry_stable (s : world) (i j k : Z) :
  Inv s ->
  table_entry (fst s) (snd s) i j k
  = table_entry (fst initial_state) (snd initial_state) i j k.
Proof.
  intros HI. unfold table_entry. rewrite (inv_table _ HI).
  destruct (py_index _ i) as [e|row] eqn:Hrow; simpl; [reflexivity|].
  destruct (py_index row j) as [e|cell] eqn:Hcell; simpl; [reflexivity|].
  destruct (py_index cell k) as [e|[[l rw] t]] eqn:Hen; simpl; [reflexivity|].
  destruct (table0_lookup i j k row cell (l, rw, t) Hrow Hcell Hen) as [Hl _].
  now rewrite (deref_table_loc s l HI Hl).
Qed.

Lemma table0_cliff_row (c : Z) (a : Action) :
  1 <= c <= 10 ->
  table_entry (fst initial_state) (snd initial_state) 3 c (index_of a)
  = ok ((3, 0), -100, false).
Proof.
  intros Hc.
  assert (Hall : forallb (fun c => negb ((1 <=? c) && (c <=? 10))
                   || forallb (fun a => entry_is initial_state 3 c a ((3, 0), -100, false))
                              all_actions) (range 12) = true)
    by (vm_compute; reflexivity).
  pose proof (forall_range _ 12 Hall c ltac:(lia)) as H. cbv beta in H.
  apply orb_true_iff in H. destruct H as [H|H].
  - apply negb_true_iff, andb_false_iff in H. destruct H as [H|H]; lia.
  - pose proof (forall_actions _ H a) as Ha. cbv beta in Ha.
    unfold entry_is in Ha. now apply bool_decide_eq_true in Ha.
Qed.

Lemma table0_goal (a : Action) :
  table_entry (fst initial_state) (snd initial_state) 3 11 (index_of a)
  = ok ((3, 11), 0, true).
Proof. destruct a; vm_compute; reflexivity. Qed.

Lemma table0_in_grid (i j : Z) (a : Action) :
  0 <= i < 4 -> 0 <= j < 12 -> entry_in_grid initial_state i j a = true.
Proof.
  intros Hi Hj.
  assert (Hall : forallb (fun i => forallb (fun j =>
                   forallb (fun a => entry_in_grid initial_state i j a) all_actions)
                   (range 12)) (range 4) = true)
    by (vm_compute; reflexivity).
  pose proof (forall_range _ 4 Hall i Hi) as H1. cbv beta in H1.
  pose proof (forall_range _ 12 H1 j Hj) as H2. cbv beta in H2.
  exact (forall_actions _ H2 a).
Qed.

(** ** take_action *)

Lemma cur_pos_at_cell (s : world) (p : ndarray) :
  Inv s -> cur_pos (at_cell s p) = p.
Proof.
  intros HI. unfold cur_pos, at_cell. simpl.
  apply deref_insert_eq, (inv_alloc _ HI).
Qed.

(** A letter of the [actions] dict and its index select the same entry. *)
Lemma lookup_transition_str (env : CliffWalking) (h : store) (a : Action) :
  actions env = the_actions ->
  lookup_transition (ActStr (letter_of a)) env h
  = lookup_transition (ActInt (index_of a)) env h.
Proof.
  intros Hact. unfold lookup_transition. rewrite Hact.
  destruct (py_index _ _) as [e|row]; simpl; [reflexivity|].
  destruct (py_index row _) as [e|cell]; simpl; [reflexivity|].
  destruct a; reflexivity.
Qed.

Lemma take_action_str (env : CliffWalking) (h : store) (a : Action) :
  actions env = the_actions ->
  take_action (ActStr (letter_of a)) env h = take_action (ActInt (index_of a)) env h.
Proof. intros Hact. unfold take_action. now rewrite lookup_transition_str. Qed.

(** The entry that [take_action] finds is the table entry of the current
    position. *)
Lemma lookup_transition_entry (s : world) (k : Z) (p : ndarray) (rw : Z) (t : bool) :
  table_entry (fst s) (snd s) (fst (cur_pos s)) (snd (cur_pos s)) k = ok (p, rw, t) ->
  exists l : loc,
    lookup_transition (ActInt k) (fst s) (snd s) = inr (l, rw, t) /\ deref (snd s) l = p.
Proof.
  unfold table_entry, lookup_transition, cur_pos.
  destruct (py_index _ (fst _)) as [e|row]; simpl; [discriminate|].
  destruct (py_index row _) as [e|cell]; simpl; [discriminate|].
  destruct (py_index cell k) as [e|[[l rw'] t']]; simpl; [discriminate|].
  intros [= <- <- <-]. eauto.
Qed.

Lemma take_action_from (s : world) (k : Z) (p : ndarray) (rw : Z) (t : bool) :
  Inv s ->
  table_entry (fst s) (snd s) (fst (cur_pos s)) (snd (cur_pos s)) k = ok (p, rw, t) ->
  take_action_yields s (ActInt k) p rw t.
Proof.
  intros HI Hentry.
  destruct (lookup_transition_entry s k p rw t Hentry) as (l & Hlk & Hp).
  destruct (take_action_cases (ActInt k) s HI)
    as [(e & He & _)|(en & Hen & Hl & _ & Hta)]; [congruence|].
  rewrite Hlk in Hen. injection Hen as <-. unfold entry_loc in *. simpl in *.
  rewrite <- (deref_table_loc s l HI Hl), Hp in Hta.
  exists l. rewrite Hta. simpl. repeat split.
  - rewrite deref_insert_ne; [assumption|].
    destruct (inv_pos _ HI); lia.
  - unfold cur_pos. simpl. apply deref_insert_eq, (inv_alloc _ HI).
Qed.

(** From a given cell, both spellings of an action yield the table entry
    of that cell. *)
Lemma take_action_at_cell (s : world) (i j : Z) (a : Action)
    (p : ndarray) (rw : Z) (t : bool) :
  Inv s -> in_grid (4, 12) (i, j) = true ->
  table_entry (fst initial_state) (snd initial_state) i j (index_of a) = ok (p, rw, t) ->
  take_action_yields (at_cell s (i, j)) (ActInt (index_of a)) p rw t
  /\ take_action_yields (at_cell s (i, j)) (ActStr (letter_of a)) p rw t.
Proof.
  intros HI Hg Hentry.
  pose proof (Inv_at_cell s (i, j) HI Hg) as HI'.
  assert (Hint : take_action_yields (at_cell s (i, j)) (ActInt (index_of a)) p rw t).
  { apply take_action_from; [assumption|].
    rewrite (cur_pos_at_cell s (i, j) HI).
    change (fst (i, j)) with i. change (snd (i, j)) with j.
    now rewrite (table_entry_stable _ i j (index_of a) HI'). }
  split; [assumption|].
  unfold take_action_yields in *.
  now rewrite (take_action_str _ _ a (inv_actions _ HI')).
Qed.

(** Whatever the environment and the store, [take_action] returns the
    environment object with all its fields as they were, and a store
    that differs from the old one at most in the cell of [self.pos]. *)
Lemma take_action_frame (act : action_arg) (env : CliffWalking) (h : store) :
  fst (snd (take_action act env h)) = env
  /\ snd (snd (take_action act env h))
     = <[pos env := deref (snd (snd (take_action act env h))) (pos env)]> h.
Proof.
  unfold take_action.
  destruct (lookup_transition act env h) as [e|[[l rw] t]]; simpl.
  - split; [reflexivity|]. symmetry. apply list_insert_id'.
    intros Hlt. unfold deref.
    destruct (h !! pos env) eqn:Hp; [reflexivity|].
    apply lookup_ge_None in Hp. lia.
  - split; [reflexivity|]. apply two_writes_frame.
Qed.

Lemma table_view_stable (s : world) : Inv s -> table_view s = table_view initial_state.
Proof.
  intros HI. unfold table_view. rewrite (inv_table _ HI).
  apply map_ext_in. intros row Hrow.
  apply map_ext_in. intros cell Hcell.
  apply map_ext_in. intros e He.
  apply list_elem_of_In in Hrow, Hcell, He.
  pose proof (all_entries_elem _ _ row cell e table0_sound Hrow Hcell He) as Hs.
  apply entry_sound_inv in Hs. destruct Hs as [Hl _].
  unfold entry_loc in Hl. cbv beta.
  now rewrite (deref_table_loc s (fst (fst e)) HI Hl).
Qed.

(** ** The environment: statements of the specification *)

(** C4.  For every cliff cell (row 3, columns 1 to 10) and every action,
    the entry of the transition table is: next position the start cell
    (3,0), reward -100, terminal flag false; and [take_action] called
    with the environment standing on that cell, with the action given
    as an index or as a letter, returns exactly that and moves the
    environment to (3,0).  This holds in the environment as constructed
    and after any sequence of calls. *)
Theorem cliff_cell_steps_to_start (cs : list call) (c : Z) (a : Action) :
  1 <= c <= 10 ->
  table_entry (fst (run cs initial_state)) (snd (run cs initial_state)) 3 c (index_of a)
  = ok ((3, 0), -100, false)
  /\ take_action_yields (at_cell (run cs initial_state) (3, c))
       (ActInt (index_of a)) (3, 0) (-100) false
  /\ take_action_yields (at_cell (run cs initial_state) (3, c))
       (ActStr (letter_of a)) (3, 0) (-100) false.
Proof.
  intros Hc.
  pose proof (Inv_run cs initial_state Inv_initial) as HI.
  split.
  - rewrite (table_entry_stable _ 3 c (index_of a) HI). now apply table0_cliff_row.
  - apply take_action_at_cell; [assumption| |now apply table0_cliff_row].
    unfold in_grid. simpl. lia.
Qed.

Lemma cliff_cell_steps_to_start_witness :
  1 <= 5 <= 10
  /\ take_action_yields (at_cell (run [CallTakeAction (ActStr "U")] initial_state) (3, 5))
       (ActInt (index_of Right)) (3, 0) (-100) false.
Proof.
  split; [lia|].
  exact (proj1 (proj2 (cliff_cell_steps_to_start
                         [CallTakeAction (ActStr "U")] 5 Right ltac:(lia)))).
Defined.

(** C5.  For every action, the entry of the transition table at the goal
    cell (3,11) is: next position (3,11), reward 0, terminal flag true;
    and [take_action] called with the environment standing on the goal,
    with the action given as an index or as a letter, returns exactly
    that and leaves the environment on (3,11). *)
Theorem goal_cell_is_absorbing (cs : list call) (a : Action) :
  table_entry (fst (run cs initial_state)) (snd (run cs initial_state)) 3 11 (index_of a)
  = ok ((3, 11), 0, true)
  /\ take_action_yields (at_cell (run cs initial_state) (3, 11))
       (ActInt (index_of a)) (3, 11) 0 true
  /\ take_action_yields (at_cell (run cs initial_state) (3, 11))
       (ActStr (letter_of a)) (3, 11) 0 true.
Proof.
  pose proof (Inv_run cs initial_state Inv_initial) as HI.
  split.
  - rewrite (table_entry_stable _ 3 11 (index_of a) HI). apply table0_goal.
  - apply take_action_at_cell; [assumption|reflexivity|apply table0_goal].
Qed.

(** C8.  For every position of the 4x12 grid and each of the four
    actions the transition table holds an entry, and the next position
    stored in it lies in the grid (row in [0,3], column in [0,11]);
    and after [reset] followed by any sequence of [take_action] calls,
    with arguments of any kind, the position of the environment lies in
    the grid. *)
Theorem positions_stay_in_grid (cs : list call) (acts : list action_arg)
    (i j : Z) (a : Action) :
  0 <= i < 4 -> 0 <= j < 12 ->
  (exists (p : ndarray) (rw : Z) (t : bool),
     table_entry (fst (run cs initial_state)) (snd (run cs initial_state)) i j (index_of a)
     = ok (p, rw, t)
     /\ 0 <= fst p <= 3 /\ 0 <= snd p <= 11)
  /\ in_grid (4, 12)
       (cur_pos (run (map CallTakeAction acts) (step (run cs initial_state) CallReset)))
     = true.
Proof.
  intros Hi Hj.
  pose proof (Inv_run cs initial_state Inv_initial) as HI.
  split.
  - pose proof (table0_in_grid i j a Hi Hj) as Hg. unfold entry_in_grid in Hg.
    rewrite (table_entry_stable _ i j (index_of a) HI).
    destruct (table_entry _ _ i j _) as [e|[[p rw] t]]; [discriminate|].
    exists p, rw, t. split; [reflexivity|].
    unfold in_grid in Hg. simpl in Hg. lia.
  - apply inv_grid, Inv_run, Inv_step, HI.
Qed.

Lemma positions_stay_in_grid_witness :
  0 <= 2 < 4 /\ 0 <= 11 < 12
  /\ in_grid (4, 12)
       (cur_pos (run (map CallTakeAction [ActInt 0; ActStr "R"; ActInt 7])
                     (step (run [] initial_state) CallReset)))
     = true.
Proof.
  split; [lia|]. split; [lia|].
  exact (proj2 (positions_stay_in_grid [] [ActInt 0; ActStr "R"; ActInt 7] 2 11 Down
                  ltac:(lia) ltac:(lia))).
Defined.

(** C9.  [take_action] returns the environment object with every field
    as it was and writes at most the array of [self.pos]; and after any
    sequence of [take_action] and [reset] calls the transition table is
    the list built by the constructor, and each of its entries, with
    the array it refers to read from the store, has the value it had at
    construction. *)
Theorem transition_table_is_immutable (cs : list call) (act : action_arg) :
  fst (snd (take_action act (fst (run cs initial_state)) (snd (run cs initial_state))))
  = fst (run cs initial_state)
  /\ snd (snd (take_action act (fst (run cs initial_state)) (snd (run cs initial_state))))
     = <[pos (fst (run cs initial_state)) :=
           cur_pos (snd (take_action act (fst (run cs initial_state))
                                     (snd (run cs initial_state))))]>
         (snd (run cs initial_state))
  /\ transmit_tensor (fst (run cs initial_state)) = transmit_tensor (fst initial_state)
  /\ table_view (run cs initial_state) = table_view initial_state.
Proof.
  pose proof (Inv_run cs initial_state Inv_initial) as HI.
  destruct (take_action_frame act (fst (run cs initial_state)) (snd (run cs initial_state)))
    as [Henv Hstore].
  repeat split.
  - exact Henv.
  - unfold cur_pos. rewrite Henv. exact Hstore.
  - exact (inv_table _ HI).
  - exact (table_view_stable _ HI).
Qed.

(** C10.  In an environment whose [actions] dict is the one set by the
    constructor, each letter 'U', 'D', 'L', 'R' is mapped to the index
    0, 1, 2, 3, and [take_action] called with the letter returns the
    same triple and leaves the same environment and store as
    [take_action] called with that index. *)
Theorem letter_and_index_agree (env : CliffWalking) (h : store) (a : Action) :
  actions env = the_actions ->
  actions env !! letter_of a = Some (index_of a)
  /\ take_action (ActStr (letter_of a)) env h = take_action (ActInt (index_of a)) env h.
Proof.
  intros Hact. split.
  - rewrite Hact. destruct a; reflexivity.
  - now apply take_action_str.
Qed.

Lemma letter_and_index_agree_witness :
  actions (fst initial_state) = the_actions
  /\ take_action (ActStr "L") (fst initial_state) (snd initial_state)
     = take_action (ActInt 2) (fst initial_state) (snd initial_state).
Proof.
  split; [reflexivity|].
  exact (proj2 (letter_and_index_agree (fst initial_state) (snd initial_state) Left
                  ltac:(reflexivity))).
Defined.

(* ===================================================================== *)
(** ** convert_state2onehot *)
(* ===================================================================== *)

(** For a cell of the grid the result is a tensor with one row of
    length 48, holding a single [1.] among zeros, at index
    [5 * row + column]. *)
Lemma convert_state2onehot_grid (i j : Z) :
  0 <= i < 4 -> 0 <= j < 12 ->
  exists row : list F32.t,
    convert_state2onehot (i, j) 48 = ok [row]
    /\ length row = 48%nat
    /\ hot_index row = Some (Z.to_nat (5 * i + j)).
Proof.
  intros Hi Hj.
  pose (check := fun i j : Z =>
    match convert_state2onehot (i, j) 48 with
    | inr [row] => Nat.eqb (length row) 48
                   && bool_decide (hot_index row = Some (Z.to_nat (5 * i + j)))
    | _ => false
    end).
  assert (Hall : forallb (fun i => forallb (check i) (range 12)) (range 4) = true)
    by (vm_compute; reflexivity).
  pose proof (forall_range _ 4 Hall i Hi) as H1. cbv beta in H1.
  pose proof (forall_range _ 12 H1 j Hj) as H2. unfold check in H2.
  destruct (convert_state2onehot (i, j) 48) as [e|[|row [|? ?]]]; try discriminate.
  apply andb_true_iff in H2. destruct H2 as [Hlen Hhot].
  apply Nat.eqb_eq in Hlen. apply bool_decide_eq_true in Hhot.
  exists row. auto.
Qed.

(** C1.  The encoding is not injective on the grid: the cells (0,5) and
    (1,0) are distinct cells of the 4x12 grid, and
    [convert_state2onehot] returns for both the same tensor, whose
    single [1.] is at index 5 (the row is multiplied by 5, not by the
    12 columns of the grid). *)
Theorem onehot_collision :
  (0, 5) <> (1, 0)
  /\ in_grid (4, 12) (0, 5) = true
  /\ in_grid (4, 12) (1, 0) = true
  /\ convert_state2onehot (0, 5) 48 = convert_state2onehot (1, 0) 48
  /\ exists row : list F32.t,
       convert_state2onehot (0, 5) 48 = ok [row]
       /\ length row = 48%nat
       /\ hot_index row = Some 5%nat.
Proof.
  split; [discriminate|].
  do 3 (split; [reflexivity|]).
  destruct (convert_state2onehot_grid 0 5 ltac:(lia) ltac:(lia)) as (row & H1 & H2 & H3).
  exists row. auto.
Qed.

(* ===================================================================== *)
(** ** ReplayPool *)
(* ===================================================================== *)

Section PoolFacts.
Context {S A R M : Type}.
Implicit Types p : ReplayPool.t S A R M.

Lemma pop_all_pool p : snd (ReplayPool.pop_all p) = p.
Proof. unfold ReplayPool.pop_all. now destruct (ReplayPool.memory p). Qed.

Lemma pop_all_nonempty p :
  ReplayPool.memory p <> [] ->
  fst (ReplayPool.pop_all p)
  = ok (ReplayPool.mkTransition
          (map ReplayPool.state (ReplayPool.memory p))
          (map ReplayPool.next_state (ReplayPool.memory p))
          (map ReplayPool.action (ReplayPool.memory p))
          (map ReplayPool.reward (ReplayPool.memory p))
          (map ReplayPool.mask (ReplayPool.memory p))).
Proof.
  unfold ReplayPool.pop_all. destruct (ReplayPool.memory p); [congruence|reflexivity].
Qed.

Lemma len_push p st nst a r m :
  ReplayPool.__len__ (ReplayPool.push p st nst a r m)
  = Datatypes.S (ReplayPool.__len__ p).
Proof. unfold ReplayPool.__len__, ReplayPool.push. simpl. rewrite length_app. simpl. lia. Qed.

(** C2, as the code has it.  [pop_all] leaves the pool as it found
    it, so the length after [pop_all] is the length before; called
    after a [push] it returns the five columns of the accumulated
    transitions, in the order they were pushed; and it is [reset] that
    empties the pool. *)
Theorem pop_all_keeps_the_pool p st nst a r m :
  snd (ReplayPool.pop_all p) = p
  /\ ReplayPool.__len__ (snd (ReplayPool.pop_all p)) = ReplayPool.__len__ p
  /\ fst (ReplayPool.pop_all (ReplayPool.push p st nst a r m))
     = ok (ReplayPool.mkTransition
             (map ReplayPool.state (ReplayPool.memory p) ++ [st])
             (map ReplayPool.next_state (ReplayPool.memory p) ++ [nst])
             (map ReplayPool.action (ReplayPool.memory p) ++ [a])
             (map ReplayPool.reward (ReplayPool.memory p) ++ [r])
             (map ReplayPool.mask (ReplayPool.memory p) ++ [m]))
  /\ ReplayPool.__len__ (ReplayPool.reset (snd (ReplayPool.pop_all p))) = 0%nat.
Proof.
  repeat split.
  - apply pop_all_pool.
  - now rewrite pop_all_pool.
  - rewrite pop_all_nonempty.
    + unfold ReplayPool.push. simpl. now rewrite !map_app.
    + unfold ReplayPool.push. simpl. now destruct (ReplayPool.memory p).
Qed.
End PoolFacts.

(** C2, as stated, fails: after one [push] and a [pop_all] the length
    of the pool is 1. *)
Lemma pop_all_does_not_clear :
  ReplayPool.__len__
    (snd (ReplayPool.pop_all
            (ReplayPool.push (ReplayPool.__init__ (S := ndarray) (A := Z) (R := Z) (M := Z))
                             (3, 0) (2, 0) 0 (-1) 1)))
  = 1%nat
  /\ ReplayPool.__len__
       (snd (ReplayPool.pop_all
               (ReplayPool.push (ReplayPool.__init__ (S := ndarray) (A := Z) (R := Z) (M := Z))
                                (3, 0) (2, 0) 0 (-1) 1)))
     <> 0%nat.
Proof. split; [reflexivity|discriminate]. Qed.

(* ===================================================================== *)
(** ** Construction *)
(* ===================================================================== *)

(** [CliffWalking()] has no parameter: on any store it builds the 4x12
    environment, and never raises. *)
Lemma CliffWalking_init_total (h : store) :
  exists (env : CliffWalking) (h' : store),
    CliffWalking_init h = ok (env, h') /\ shape env = (4, 12).
Proof.
  unfold CliffWalking_init. cbv zeta.
  destruct (alloc h _) as [p h1] eqn:Ha.
  destruct (_build_transmit_tensor_ _ _ _ _ h1) as [e|[table h2]] eqn:Hb.
  - exfalso. revert Hb. vm_compute. discriminate.
  - simpl. eauto.
Qed.

(** The constructors add no check to those of the library: when the
    library returns the layers, the network is returned. *)
Lemma ActorCritic_init_ok {T : TorchNN} (input_dim output_dim hidden_dim : Z)
    (fc_hidden fc_actor fc_critic : Linear) :
  nn_Linear input_dim hidden_dim = ok fc_hidden ->
  nn_Linear hidden_dim output_dim = ok fc_actor ->
  nn_Linear hidden_dim 1 = ok fc_critic ->
  xavier_uniform_ fc_hidden = ok tt ->
  xavier_uniform_ fc_actor = ok tt ->
  xavier_uniform_ fc_critic = ok tt ->
  ActorCritic.__init__ input_dim output_dim hidden_dim
  = ok (ActorCritic.mkModel input_dim output_dim fc_hidden fc_actor fc_critic).
Proof.
  intros H1 H2 H3 X1 X2 X3. unfold ActorCritic.__init__.
  rewrite H1, H2, H3. simpl. rewrite X1, X2, X3. reflexivity.
Qed.

(** Conversely, an exception that leaves the constructor was raised by
    one of the library calls. *)
Lemma REINFORCE_init_error {T : TorchNN} (input_dim output_dim hidden_dim : Z) (e : exn) :
  REINFORCE.__init__ input_dim output_dim hidden_dim = raise e ->
  nn_Linear input_dim hidden_dim = raise e
  \/ nn_Linear hidden_dim output_dim = raise e
  \/ exists m : Linear, xavier_uniform_ m = raise e.
Proof.
  unfold REINFORCE.__init__.
  destruct (nn_Linear input_dim hidden_dim) as [e1|fc1]; simpl;
    [intros [= <-]; left; reflexivity|].
  destruct (nn_Linear hidden_dim output_dim) as [e2|fc2]; simpl;
    [intros [= <-]; right; left; reflexivity|].
  destruct (xavier_uniform_ fc1) as [e3|[]] eqn:X1; simpl.
  { intros [= <-]. right. right. eauto. }
  destruct (xavier_uniform_ fc2) as [e4|[]] eqn:X2; simpl.
  { intros [= <-]. right. right. eauto. }
  discriminate.
Qed.

Lemma REINFORCE_init_ok {T : TorchNN} (input_dim output_dim hidden_dim : Z)
    (fc1 fc2 : Linear) :
  nn_Linear input_dim hidden_dim = ok fc1 ->
  nn_Linear hidden_dim output_dim = ok fc2 ->
  xavier_uniform_ fc1 = ok tt ->
  xavier_uniform_ fc2 = ok tt ->
  REINFORCE.__init__ input_dim output_dim hidden_dim
  = ok (REINFORCE.mkModel input_dim output_dim fc1 fc2).
Proof.
  intros H1 H2 X1 X2. unfold REINFORCE.__init__.
  rewrite H1, H2. simpl. rewrite X1, X2. reflexivity.
Qed.

(** An exception that leaves a constructor is the exception of one of
    the library calls it makes, with the arguments it passes. *)
Lemma REINFORCE_init_raises {T : TorchNN} (input_dim output_dim hidden_dim : Z) (e : exn) :
  REINFORCE.__init__ input_dim output_dim hidden_dim = raise e ->
  nn_Linear input_dim hidden_dim = raise e
  \/ nn_Linear hidden_dim output_dim = raise e
  \/ (exists fc1 : Linear,
        nn_Linear input_dim hidden_dim = ok fc1 /\ xavier_uniform_ fc1 = raise e)
  \/ (exists fc2 : Linear,
        nn_Linear hidden_dim output_dim = ok fc2 /\ xavier_uniform_ fc2 = raise e).
Proof.
  unfold REINFORCE.__init__.
  destruct (nn_Linear input_dim hidden_dim) as [e1|fc1]; simpl;
    [intros [= <-]; left; reflexivity|].
  destruct (nn_Linear hidden_dim output_dim) as [e2|fc2]; simpl;
    [intros [= <-]; right; left; reflexivity|].
  destruct (xavier_uniform_ fc1) as [e3|[]] eqn:X1; simpl.
  { intros [= <-]. right. right. left. exists fc1. split; [reflexivity|exact X1]. }
  destruct (xavier_uniform_ fc2) as [e4|[]] eqn:X2; simpl.
  { intros [= <-]. right. right. right. exists fc2. split; [reflexivity|exact X2]. }
  discriminate.
Qed.

Lemma ActorCritic_init_raises {T : TorchNN} (input_dim output_dim hidden_dim : Z) (e : exn) :
  ActorCritic.__init__ input_dim output_dim hidden_dim = raise e ->
  nn_Linear input_dim hidden_dim = raise e
  \/ nn_Linear hidden_dim output_dim = raise e
  \/ nn_Linear hidden_dim 1 = raise e
  \/ (exists fc_hidden : Linear,
        nn_Linear input_dim hidden_dim = ok fc_hidden
        /\ xavier_uniform_ fc_hidden = raise e)
  \/ (exists fc_actor : Linear,
        nn_Linear hidden_dim output_dim = ok fc_actor
        /\ xavier_uniform_ fc_actor = raise e)
  \/ (exists fc_critic : Linear,
        nn_Linear hidden_dim 1 = ok fc_critic
        /\ xavier_uniform_ fc_critic = raise e).
Proof.
  unfold ActorCritic.__init__.
  destruct (nn_Linear input_dim hidden_dim) as [e1|fc1]; simpl;
    [intros [= <-]; left; reflexivity|].
  destruct (nn_Linear hidden_dim output_dim) as [e2|fc2]; simpl;
    [intros [= <-]; right; left; reflexivity|].
  destruct (nn_Linear hidden_dim 1) as [e3|fc3]; simpl;
    [intros [= <-]; right; right; left; reflexivity|].
  destruct (xavier_uniform_ fc1) as [e4|[]] eqn:X1; simpl.
  { intros [= <-]. do 3 right. left. exists fc1. split; [reflexivity|exact X1]. }
  destruct (xavier_uniform_ fc2) as [e5|[]] eqn:X2; simpl.
  { intros [= <-]. do 4 right. left. exists fc2. split; [reflexivity|exact X2]. }
  destruct (xavier_uniform_ fc3) as [e6|[]] eqn:X3; simpl.
  { intros [= <-]. do 5 right. exists fc3. split; [reflexivity|exact X3]. }
  discriminate.
Qed.

(** C3, as the code has it.  The constructors validate nothing
    themselves.  [REINFORCE(input_dim, output_dim, hidden_dim)] and
    [ActorCritic(input_dim, output_dim, hidden_dim)] return the
    network, with the layers the library built, whenever their
    [nn.Linear] calls and initialisations return, whatever the widths;
    an exception that leaves one of them is the exception raised by one
    of these library calls; and [CliffWalking()], which takes no
    configuration, builds the 4x12 environment on any store and never
    raises. *)
Theorem constructors_validate_nothing {T : TorchNN}
    (input_dim output_dim hidden_dim : Z) :
  (forall fc1 fc2 : Linear,
     nn_Linear input_dim hidden_dim = ok fc1 ->
     nn_Linear hidden_dim output_dim = ok fc2 ->
     xavier_uniform_ fc1 = ok tt ->
     xavier_uniform_ fc2 = ok tt ->
     REINFORCE.__init__ input_dim output_dim hidden_dim
     = ok (REINFORCE.mkModel input_dim output_dim fc1 fc2))
  /\ (forall e : exn,
        REINFORCE.__init__ input_dim output_dim hidden_dim = raise e ->
        nn_Linear input_dim hidden_dim = raise e
        \/ nn_Linear hidden_dim output_dim = raise e
        \/ (exists fc1 : Linear,
              nn_Linear input_dim hidden_dim = ok fc1 /\ xavier_uniform_ fc1 = raise e)
        \/ (exists fc2 : Linear,
              nn_Linear hidden_dim output_dim = ok fc2 /\ xavier_uniform_ fc2 = raise e))
  /\ (forall fc_hidden fc_actor fc_critic : Linear,
        nn_Linear input_dim hidden_dim = ok fc_hidden ->
        nn_Linear hidden_dim output_dim = ok fc_actor ->
        nn_Linear hidden_dim 1 = ok fc_critic ->
        xavier_uniform_ fc_hidden = ok tt ->
        xavier_uniform_ fc_actor = ok tt ->
        xavier_uniform_ fc_critic = ok tt ->
        ActorCritic.__init__ input_dim output_dim hidden_dim
        = ok (ActorCritic.mkModel input_dim output_dim fc_hidden fc_actor fc_critic))
  /\ (forall e : exn,
        ActorCritic.__init__ input_dim output_dim hidden_dim = raise e ->
        nn_Linear input_dim hidden_dim = raise e
        \/ nn_Linear hidden_dim output_dim = raise e
        \/ nn_Linear hidden_dim 1 = raise e
        \/ (exists fc_hidden : Linear,
              nn_Linear input_dim hidden_dim = ok fc_hidden
              /\ xavier_uniform_ fc_hidden = raise e)
        \/ (exists fc_actor : Linear,
              nn_Linear hidden_dim output_dim = ok fc_actor
              /\ xavier_uniform_ fc_actor = raise e)
        \/ (exists fc_critic : Linear,
              nn_Linear hidden_dim 1 = ok fc_critic
              /\ xavier_uniform_ fc_critic = raise e))
  /\ (forall h : store,
        exists (env : CliffWalking) (h' : store),
          CliffWalking_init h = ok (env, h') /\ shape env = (4, 12)).
Proof.
  split; [|split; [|split; [|split]]].
  - intros fc1 fc2. apply REINFORCE_init_ok.
  - intros e. apply REINFORCE_init_raises.
  - intros fc_hidden fc_actor fc_critic. apply ActorCritic_init_ok.
  - intros e. apply ActorCritic_init_raises.
  - apply CliffWalking_init_total.
Qed.

Lemma constructors_validate_nothing_witness :
  nn_Linear (TorchNN := pytorch) 48 0 = ok (mkLinear 48 0)
  /\ nn_Linear (TorchNN := pytorch) 0 4 = ok (mkLinear 0 4)
  /\ xavier_uniform_ (TorchNN := pytorch) (mkLinear 48 0) = ok tt
  /\ xavier_uniform_ (TorchNN := pytorch) (mkLinear 0 4) = ok tt
  /\ REINFORCE.__init__ (T := pytorch) 48 4 0
     = ok (REINFORCE.mkModel 48 4 (mkLinear 48 0) (mkLinear 0 4))
  /\ REINFORCE.__init__ (T := pytorch) 48 4 (-1) = raise RuntimeError
  /\ (nn_Linear (TorchNN := pytorch) 48 (-1) = raise RuntimeError
      \/ nn_Linear (TorchNN := pytorch) (-1) 4 = raise RuntimeError
      \/ (exists fc1 : Linear,
            nn_Linear (TorchNN := pytorch) 48 (-1) = ok fc1
            /\ xavier_uniform_ (TorchNN := pytorch) fc1 = raise RuntimeError)
      \/ (exists fc2 : Linear,
            nn_Linear (TorchNN := pytorch) (-1) 4 = ok fc2
            /\ xavier_uniform_ (TorchNN := pytorch) fc2 = raise RuntimeError)).
Proof.
  do 4 (split; [reflexivity|]).
  split.
  - apply (proj1 (constructors_validate_nothing (T := pytorch) 48 4 0)
             (mkLinear 48 0) (mkLinear 0 4)); reflexivity.
  - split; [reflexivity|].
    apply (proj1 (proj2 (constructors_validate_nothing (T := pytorch) 48 4 (-1)))
             RuntimeError).
    reflexivity.
Defined.

(** C3, as stated, fails: with hidden width zero, and PyTorch accepting
    empty layers, the constructor of [REINFORCE] raises nothing and
    returns a network whose hidden layer has no unit. *)
Lemma zero_hidden_width_is_constructed :
  is_error (REINFORCE.__init__ (T := pytorch) 48 4 0) = false
  /\ exists net : REINFORCE.model,
       REINFORCE.__init__ (T := pytorch) 48 4 0 = ok net
       /\ out_features (REINFORCE.fc1 net) = 0
       /\ in_features (REINFORCE.fc2 net) = 0.
Proof.
  split; [reflexivity|].
  eexists. split; [reflexivity|]. split; reflexivity.
Qed.

(* ===================================================================== *)
(** ** The arithmetic of the learners *)
(* ===================================================================== *)

Lemma py_index_lookup {A : Type} (l : list A) (n : nat) (x : A) :
  l !! n = Some x -> py_index l (Z.of_nat n) = ok x.
Proof.
  intros Hx. unfold py_index.
  rewrite norm_index_nonneg by (apply lookup_lt_Some in Hx; lia).
  now rewrite Nat2Z.id, Hx.
Qed.

(** The loop, entered with [n] indices left, the returns of the later
    steps already in place and [running_return] the return of step
    [n], completes the list of the recurrence. *)
Lemma returns_loop_spec (gamma : F32.t) (rewards masks : list F32.t) (n : nat) :
  length masks = length rewards ->
  forall returns : list F32.t,
    (n <= length rewards)%nat ->
    length returns = length rewards ->
    drop n returns = REINFORCE.spec_returns gamma (drop n rewards) (drop n masks) ->
    REINFORCE.returns_loop n gamma rewards masks
      (hd F32.zero (REINFORCE.spec_returns gamma (drop n rewards) (drop n masks))) returns
    = ok (REINFORCE.spec_returns gamma rewards masks).
Proof.
  intros Hlen. induction n as [|t IH]; intros returns Hn Hret Hdone.
  - simpl. now rewrite !drop_0 in Hdone; subst.
  - destruct (lookup_lt_is_Some_2 rewards t ltac:(lia)) as [r Hr].
    destruct (lookup_lt_is_Some_2 masks t ltac:(lia)) as [m Hm].
    simpl. rewrite (py_index_lookup _ _ _ Hr), (py_index_lookup _ _ _ Hm). simpl.
    pose proof (drop_S _ _ _ Hr) as Dr. pose proof (drop_S _ _ _ Hm) as Dm.
    set (rr := F32.add r (F32.mul (F32.mul gamma
                 (hd F32.zero (REINFORCE.spec_returns gamma (drop (S t) rewards)
                                                      (drop (S t) masks)))) m)).
    assert (Hspec : REINFORCE.spec_returns gamma (drop t rewards) (drop t masks)
                    = rr :: REINFORCE.spec_returns gamma (drop (S t) rewards) (drop (S t) masks))
      by (rewrite Dr, Dm; reflexivity).
    specialize (IH (<[t := rr]> returns)).
    rewrite Hspec in IH. simpl in IH. apply IH.
    + lia.
    + now rewrite length_insert.
    + rewrite (drop_S (<[t := rr]> returns) rr t)
        by (apply list_lookup_insert_eq; lia).
      rewrite drop_insert_lt by lia. now rewrite Hdone.
Qed.

(** For an episode with as many masks as rewards, the loop of
    [train_model] returns, and what it returns is the list of the
    recurrence of the specification. *)
Lemma train_model_returns_spec (gamma : F32.t) (rewards masks : list F32.t) :
  length masks = length rewards ->
  REINFORCE.train_model_returns gamma rewards masks
  = ok (REINFORCE.spec_returns gamma rewards masks).
Proof.
  intros Hlen. unfold REINFORCE.train_model_returns.
  pose proof (returns_loop_spec gamma rewards masks (length rewards) Hlen
                (replicate (length rewards) F32.zero)) as H.
  rewrite (drop_ge rewards), (drop_ge masks) in H by lia. simpl in H.
  apply H; [lia | apply length_replicate |].
  apply drop_ge. rewrite length_replicate. lia.
Qed.

(** C6.  With rewards [-1,-1,-1,0], masks [1,1,1,0] and gamma 1.0 the
    loop of [REINFORCE.train_model] returns without an error and fills
    [returns] with [-3,-2,-1,0]. *)
Theorem returns_of_the_example_episode :
  REINFORCE.train_model_returns F32.one
    (map F32.of_Z [-1; -1; -1; 0]) (map F32.of_Z [1; 1; 1; 0])
  = ok (map F32.of_Z [-3; -2; -1; 0]).
Proof.
  rewrite train_model_returns_spec by reflexivity.
  vm_compute. reflexivity.
Qed.

Lemma eqb_refl (x : F32.t) : F32.eqb x x = negb (F32.is_nan x).
Proof.
  destruct x as [s|s| |s m e]; try (destruct s; reflexivity); try reflexivity.
  unfold F32.eqb, SFeqb, SFcompare. simpl.
  rewrite Z.compare_refl, Pos.compare_cont_refl. now destruct s.
Qed.

(** The product [mask * gamma * next_value[0]] with mask 0 is a zero,
    of either sign, when the two other factors are finite. *)
Lemma masked_product_is_zero (gamma next_value0 : F32.t) :
  F32.is_finite gamma = true -> F32.is_finite next_value0 = true ->
  exists s : bool, F32.mul (F32.mul (F32.of_Z 0) gamma) next_value0 = S754_zero s.
Proof.
  destruct gamma as [sg|sg| |sg mg eg]; try discriminate;
    destruct next_value0 as [sv|sv| |sv mv ev]; try discriminate;
    intros _ _; simpl; eauto.
Qed.

(** C7, as the code has it.  With mask 0, a finite gamma and a finite
    next-state value, the TD target is the reward: the same float32
    value, except that for the reward [-0.0] the sum may be [+0.0]; in
    the comparison of IEEE 754 the target is equal to every reward that
    is not NaN. *)
Theorem terminal_target_is_reward (reward gamma next_value0 : F32.t) :
  F32.is_finite gamma = true -> F32.is_finite next_value0 = true ->
  (ActorCritic.target_plus_value reward 0 gamma next_value0 = reward
   \/ (reward = F32.neg_zero
       /\ ActorCritic.target_plus_value reward 0 gamma next_value0 = F32.zero))
  /\ F32.eqb (ActorCritic.target_plus_value reward 0 gamma next_value0) reward
     = negb (F32.is_nan reward).
Proof.
  intros Hg Hv. unfold ActorCritic.target_plus_value.
  destruct (masked_product_is_zero gamma next_value0 Hg Hv) as [s ->].
  destruct reward as [sr|sr| |sr mr er]; simpl.
  - destruct sr, s; simpl; split; auto.
  - split; [now left | apply eqb_refl].
  - split; [now left | reflexivity].
  - split; [now left | apply (eqb_refl (S754_finite sr mr er))].
Qed.

Lemma terminal_target_is_reward_witness :
  F32.is_finite F32.one = true /\ F32.is_finite (F32.of_Z (-7)) = true
  /\ F32.eqb (ActorCritic.target_plus_value (F32.of_Z 0) 0 F32.one (F32.of_Z (-7)))
             (F32.of_Z 0)
     = negb (F32.is_nan (F32.of_Z 0)).
Proof.
  split; [reflexivity|]. split; [reflexivity|].
  exact (proj2 (terminal_target_is_reward (F32.of_Z 0) F32.one (F32.of_Z (-7))
                  ltac:(reflexivity) ltac:(reflexivity))).
Defined.

(** C7, as stated, fails: with mask 0, gamma 1.0 and an infinite
    next-state value, the target for the reward 0 is NaN, which is not
    the reward and does not compare equal to it. *)
Lemma terminal_target_with_infinite_value :
  ActorCritic.target_plus_value (F32.of_Z 0) 0 F32.one F32.pos_inf = S754_nan
  /\ ActorCritic.target_plus_value (F32.of_Z 0) 0 F32.one F32.pos_inf <> F32.of_Z 0
  /\ F32.eqb (ActorCritic.target_plus_value (F32.of_Z 0) 0 F32.one F32.pos_inf)
             (F32.of_Z 0)
     = false.
Proof. split; [reflexivity|]. split; [discriminate|reflexivity]. Qed.

(* ===================================================================== *)
(** * Further properties of the environment *)
(* ===================================================================== *)

Lemma in_grid_bounds (p : ndarray) :
  in_grid (4, 12) p = true -> 0 <= fst p < 4 /\ 0 <= snd p < 12.
Proof. unfold in_grid. simpl. lia. Qed.

(** The constructed table holds, for every cell and action, the step in
    closed form. *)
Lemma table0_closed_form (i j : Z) (a : Action) :
  0 <= i < 4 -> 0 <= j < 12 ->
  table_entry (fst initial_state) (snd initial_state) i j (index_of a)
  = ok (step_rule (i, j) a).
Proof.
  intros Hi Hj.
  assert (Hall : forallb (fun i => forallb (fun j =>
                   forallb (fun a => entry_is initial_state i j a (step_rule (i, j) a))
                           all_actions) (range 12)) (range 4) = true)
    by (vm_compute; reflexivity).
  pose proof (forall_range _ 4 Hall i Hi) as H1. cbv beta in H1.
  pose proof (forall_range _ 12 H1 j Hj) as H2. cbv beta in H2.
  pose proof (forall_actions _ H2 a) as H3. cbv beta in H3.
  unfold entry_is in H3. now apply bool_decide_eq_true in H3.
Qed.

Lemma take_action_rule (s : world) (a : Action) :
  Inv s ->
  take_action_yields s (ActInt (index_of a))
    (fst (fst (step_rule (cur_pos s) a)))
    (snd (fst (step_rule (cur_pos s) a)))
    (snd (step_rule (cur_pos s) a)).
Proof.
  intros HI.
  destruct (in_grid_bounds _ (inv_grid _ HI)) as [Hi Hj].
  apply take_action_from; [assumption|].
  rewrite (table_entry_stable s _ _ _ HI).
  rewrite (table0_closed_form _ _ a Hi Hj).
  destruct (cur_pos s) as [i j]. simpl.
  now destruct (step_rule (i, j) a) as [[q rw] t].
Qed.

Lemma observe_rule (s : world) (a : Action) :
  Inv s ->
  observe (take_action (ActInt (index_of a)) (fst s) (snd s)) = inr (step_rule (cur_pos s) a)
  /\ cur_pos (snd (take_action (ActInt (index_of a)) (fst s) (snd s)))
     = fst (fst (step_rule (cur_pos s) a)).
Proof.
  intros HI. destruct (take_action_rule s a HI) as (l & Hr & Hd & Hc).
  split; [|assumption].
  unfold observe.
  destruct (take_action (ActInt (index_of a)) (fst s) (snd s)) as [r w].
  simpl in *. subst r. unfold ok. rewrite Hd.
  now destruct (step_rule (cur_pos s) a) as [[q rw] t].
Qed.

Lemma env_trace_rule (acts : list Action) (s : world) :
  Inv s ->
  env_trace s (int_actions acts) = map inr (rule_trace (cur_pos s) acts)
  /\ cur_pos (run (map CallTakeAction (int_actions acts)) s) = rule_final (cur_pos s) acts.
Proof.
  revert s. induction acts as [|a acts IH]; intros s HI; [split; reflexivity|].
  destruct (observe_rule s a HI) as [Ho Hc].
  pose proof (Inv_take_action (ActInt (index_of a)) s HI) as HI'.
  destruct (IH _ HI') as [IH1 IH2].
  split.
  - simpl. rewrite Ho, IH1, Hc. reflexivity.
  - simpl. unfold rule_final in *. simpl. rewrite <- Hc. exact IH2.
Qed.

(** X1.  In the constructed environment and after any sequence of calls,
    a sequence of [take_action] calls with valid indices shows the
    caller, call after call, what the closed form of a step gives from
    the current cell (next cell, reward, terminal flag), and leaves the
    environment on the cell the closed form reaches. *)
Theorem take_action_follows_the_rule (cs : list call) (acts : list Action) :
  env_trace (run cs initial_state) (int_actions acts)
  = map inr (rule_trace (cur_pos (run cs initial_state)) acts)
  /\ cur_pos (run (map CallTakeAction (int_actions acts)) (run cs initial_state))
     = rule_final (cur_pos (run cs initial_state)) acts.
Proof. apply env_trace_rule, Inv_run, Inv_initial. Qed.

(** ** Arguments that are not actions *)

(** Every cell of the constructed table is a list of four entries. *)
Lemma table0_cell (i j : Z) :
  0 <= i < 4 -> 0 <= j < 12 ->
  exists (row : list (list entry)) (cell : list entry),
    py_index (transmit_tensor (fst initial_state)) i = inr row
    /\ py_index row j = inr cell
    /\ length cell = 4%nat.
Proof.
  intros Hi Hj.
  pose (check := fun i j : Z =>
    match py_index (transmit_tensor (fst initial_state)) i with
    | inr row => match py_index row j with
                 | inr cell => Nat.eqb (length cell) 4
                 | inl _ => false
                 end
    | inl _ => false
    end).
  assert (Hall : forallb (fun i => forallb (check i) (range 12)) (range 4) = true)
    by (vm_compute; reflexivity).
  pose proof (forall_range _ 4 Hall _ Hi) as H1. cbv beta in H1.
  pose proof (forall_range _ 12 H1 _ Hj) as H2. unfold check in H2.
  clear Hall H1 check.
  destruct (py_index (transmit_tensor (fst initial_state)) i) as [e|row];
    [exfalso; clear -H2; congruence|].
  destruct (py_index row j) as [e|cell] eqn:Hcell; [exfalso; clear -H2; congruence|].
  apply Nat.eqb_eq in H2. exists row, cell.
  split; [reflexivity|]. split; [exact Hcell|exact H2].
Qed.

(** In a state of a run the two outer look-ups of [take_action] succeed
    and find a list of four entries. *)
Lemma lookup_transition_cell (s : world) :
  Inv s ->
  exists cell : list entry,
    length cell = 4%nat
    /\ forall act : action_arg,
         lookup_transition act (fst s) (snd s)
         = match act with
           | ActStr str => rbind (dict_get the_actions str) (fun k => py_index cell k)
           | ActInt k => py_index cell k
           end.
Proof.
  intros HI.
  destruct (in_grid_bounds _ (inv_grid _ HI)) as [Hi Hj].
  destruct (table0_cell _ _ Hi Hj) as (row & cell & Hrow & Hcell & Hlen).
  exists cell. split; [assumption|].
  intros act. unfold lookup_transition.
  rewrite (inv_table _ HI), (inv_actions _ HI).
  fold (cur_pos s). rewrite Hrow. simpl. rewrite Hcell. simpl.
  now destruct act.
Qed.

Lemma take_action_raises (act : action_arg) (s : world) (e : exn) :
  lookup_transition act (fst s) (snd s) = raise e ->
  take_action act (fst s) (snd s) = (raise e, s).
Proof. intros H. unfold take_action. rewrite H. now destruct s. Qed.

Ltac split_comparisons :=
  repeat match goal with
         | |- context [?a <=? ?b] => destruct (Z.leb_spec a b)
         | |- context [?a <? ?b] => destruct (Z.ltb_spec a b)
         end; simpl.

Lemma norm_index_out (len : nat) (k : Z) :
  k < - Z.of_nat len \/ Z.of_nat len <= k -> norm_index len k = None.
Proof. intros Hk. unfold norm_index. split_comparisons; try reflexivity; lia. Qed.

Lemma norm_index_back (len : nat) (k : Z) :
  - Z.of_nat len <= k < 0 -> norm_index len k = norm_index len (k + Z.of_nat len).
Proof.
  intros Hk. unfold norm_index. split_comparisons; try lia.
  f_equal. lia.
Qed.

Lemma py_index_4_out {A : Type} (cell : list A) (k : Z) :
  length cell = 4%nat -> k < -4 \/ 3 < k -> py_index cell k = raise IndexError.
Proof.
  intros Hlen Hk. unfold py_index. rewrite norm_index_out; [reflexivity|].
  rewrite Hlen. lia.
Qed.

Lemma py_index_4_back {A : Type} (cell : list A) (k : Z) :
  length cell = 4%nat -> -4 <= k <= -1 -> py_index cell k = py_index cell (k + 4).
Proof.
  intros Hlen Hk. unfold py_index.
  rewrite norm_index_back by (rewrite Hlen; lia).
  now rewrite Hlen.
Qed.

(** X2.  In the constructed environment and after any sequence of
    calls, [take_action] called with a string that is not a key of the
    [actions] dict (anything but 'U', 'D', 'L', 'R') raises [KeyError]
    and leaves the environment and every array as they were. *)
Theorem unknown_letter_raises_KeyError (cs : list call) (str : string) :
  the_actions !! str = None ->
  take_action (ActStr str) (fst (run cs initial_state)) (snd (run cs initial_state))
  = (raise KeyError, run cs initial_state).
Proof.
  intros Hstr. apply take_action_raises.
  destruct (lookup_transition_cell _ (Inv_run cs _ Inv_initial)) as (cell & _ & ->).
  unfold dict_get. now rewrite Hstr.
Qed.

Lemma unknown_letter_raises_KeyError_witness :
  the_actions !! "u"%string = None
  /\ take_action (ActStr "u") (fst (run [CallReset] initial_state))
       (snd (run [CallReset] initial_state))
     = (raise KeyError, run [CallReset] initial_state).
Proof.
  split; [reflexivity|].
  apply (unknown_letter_raises_KeyError [CallReset] "u"). reflexivity.
Defined.

(** X3.  In the constructed environment and after any sequence of
    calls, [take_action] called with an integer below -4 or above 3
    raises [IndexError] and leaves the environment and every array as
    they were. *)
Theorem index_out_of_range_raises_IndexError (cs : list call) (k : Z) :
  k < -4 \/ 3 < k ->
  take_action (ActInt k) (fst (run cs initial_state)) (snd (run cs initial_state))
  = (raise IndexError, run cs initial_state).
Proof.
  intros Hk. apply take_action_raises.
  destruct (lookup_transition_cell _ (Inv_run cs _ Inv_initial)) as (cell & Hlen & ->).
  now apply py_index_4_out.
Qed.

Lemma index_out_of_range_raises_IndexError_witness :
  (4 < -4 \/ 3 < 4)
  /\ take_action (ActInt 4) (fst (run [] initial_state)) (snd (run [] initial_state))
     = (raise IndexError, run [] initial_state).
Proof.
  split; [right; lia|].
  apply (index_out_of_range_raises_IndexError [] 4). right. lia.
Defined.

(** X4.  The integers -4 to -1 are accepted: they index the four
    entries of a cell from the back, so [take_action(k)] with
    [-4 <= k <= -1] does in every respect what [take_action(k + 4)]
    does (-1 is Right, -4 is Up). *)
Theorem negative_index_counts_from_the_back (cs : list call) (k : Z) :
  -4 <= k <= -1 ->
  take_action (ActInt k) (fst (run cs initial_state)) (snd (run cs initial_state))
  = take_action (ActInt (k + 4)) (fst (run cs initial_state)) (snd (run cs initial_state)).
Proof.
  intros Hk.
  destruct (lookup_transition_cell _ (Inv_run cs _ Inv_initial)) as (cell & Hlen & Hlk).
  unfold take_action. rewrite (Hlk (ActInt k)), (Hlk (ActInt (k + 4))).
  now rewrite (py_index_4_back cell k Hlen Hk).
Qed.

Lemma negative_index_counts_from_the_back_witness :
  -4 <= -1 <= -1
  /\ take_action (ActInt (-1)) (fst (run [] initial_state)) (snd (run [] initial_state))
     = take_action (ActInt (-1 + 4)) (fst (run [] initial_state)) (snd (run [] initial_state)).
Proof.
  split; [lia|].
  apply (negative_index_counts_from_the_back [] (-1)). lia.
Defined.

(** ** Arrays shared with the caller *)

Lemma reset_spec (s : world) :
  Inv s ->
  pos (fst (snd (reset (fst s) (snd s)))) = fst (reset (fst s) (snd s))
  /\ cur_pos (snd (reset (fst s) (snd s))) = (3, 0).
Proof.
  intros HI. unfold reset, alloc, cur_pos, deref. simpl.
  split; [reflexivity|].
  rewrite list_lookup_middle by reflexivity. now rewrite (inv_shape _ HI).
Qed.

(** X5.  [reset] returns the start cell (3,0), but what it returns is
    the array of [self.pos] itself and not a copy: after the next
    [take_action], the array that [reset] returned holds the cell the
    environment has moved to (after Up it reads (2,0)). *)
Theorem reset_returns_the_position_array (cs : list call) (a : Action) :
  deref (snd (snd (reset (fst (run cs initial_state)) (snd (run cs initial_state)))))
        (fst (reset (fst (run cs initial_state)) (snd (run cs initial_state))))
  = (3, 0)
  /\ deref (snd (snd (take_action (ActInt (index_of a))
                        (fst (snd (reset (fst (run cs initial_state))
                                         (snd (run cs initial_state)))))
                        (snd (snd (reset (fst (run cs initial_state))
                                         (snd (run cs initial_state))))))))
           (fst (reset (fst (run cs initial_state)) (snd (run cs initial_state))))
     = fst (fst (step_rule (3, 0) a)).
Proof.
  pose proof (Inv_run cs _ Inv_initial) as HI.
  destruct (reset_spec _ HI) as [Hpos Hcur].
  pose proof (Inv_reset _ HI) as HI1.
  set (r := reset (fst (run cs initial_state)) (snd (run cs initial_state))) in *.
  split.
  - rewrite <- Hpos. exact Hcur.
  - destruct (observe_rule (snd r) a HI1) as [_ Hc].
    rewrite Hcur in Hc. rewrite <- Hc. unfold cur_pos.
    destruct (take_action_frame (ActInt (index_of a)) (fst (snd r)) (snd (snd r)))
      as [-> _].
    now rewrite Hpos.
Qed.

Lemma table_entry_lookup (env : CliffWalking) (h h' : store) (k : Z) :
  table_entry env h' (fst (deref h (pos env))) (snd (deref h (pos env))) k
  = rbind (lookup_transition (ActInt k) env h)
          (fun '(l, rw, t) => ok (deref h' l, rw, t)).
Proof.
  unfold table_entry, lookup_transition.
  destruct (py_index _ (fst _)) as [e|row]; simpl; [reflexivity|].
  destruct (py_index row _) as [e|cell]; simpl; reflexivity.
Qed.

(** X6.  The array that [take_action] returns is the array held by the
    transition table, not a copy: if the caller overwrites it in place
    with [v], the table entry of the cell and action just used reads
    [v] as its next position from then on. *)
Theorem returned_array_is_the_table_array (cs : list call) (a : Action) (v : ndarray) :
  exists (l : loc) (rw : Z) (t : bool),
    fst (take_action (ActInt (index_of a))
           (fst (run cs initial_state)) (snd (run cs initial_state)))
    = ok (l, rw, t)
    /\ l <> pos (fst (run cs initial_state))
    /\ table_entry
         (fst (run cs initial_state))
         (<[l := v]> (snd (snd (take_action (ActInt (index_of a))
                                  (fst (run cs initial_state))
                                  (snd (run cs initial_state))))))
         (fst (cur_pos (run cs initial_state))) (snd (cur_pos (run cs initial_state)))
         (index_of a)
       = ok (v, rw, t).
Proof.
  pose proof (Inv_run cs _ Inv_initial) as HI.
  set (s := run cs initial_state) in *.
  destruct (take_action_cases (ActInt (index_of a)) s HI)
    as [(e & He & _)|(en & Hen & Hl & _ & Hta)].
  { destruct (take_action_rule s a HI) as (l & Hr & _).
    unfold take_action in Hr. rewrite He in Hr. discriminate. }
  destruct en as [[l rw] t]. unfold entry_loc in *. simpl in Hl.
  exists l, rw, t. rewrite Hta. simpl.
  split; [reflexivity|]. split.
  - destruct (inv_pos _ HI); lia.
  - unfold cur_pos. rewrite (table_entry_lookup (fst s) (snd s)), Hen. simpl.
    rewrite deref_insert_eq; [reflexivity|].
    rewrite length_insert. pose proof (inv_len _ HI). lia.
Qed.

(** ** The score of an episode *)

(** One step, on the grid: it stays on the grid, its reward is paid for
    by the decrease of [cost_to_go], it uses up at most one of the
    [calls_to_go], and it returns the terminal flag only from the goal,
    where it stays. *)
Lemma step_rule_accounts (p : ndarray) (a : Action) :
  in_grid (4, 12) p = true ->
  in_grid (4, 12) (fst (fst (step_rule p a))) = true
  /\ snd (fst (step_rule p a)) <= cost_to_go (fst (fst (step_rule p a))) - cost_to_go p
  /\ calls_to_go p - 1 <= calls_to_go (fst (fst (step_rule p a)))
  /\ (snd (step_rule p a) = true -> is_goal p = true)
  /\ (is_goal p = true -> is_goal (fst (fst (step_rule p a))) = true).
Proof.
  intros Hp. destruct p as [i j].
  destruct (in_grid_bounds _ Hp) as [Hi Hj]. simpl in Hi, Hj.
  pose (check := fun (i j : Z) (a : Action) =>
    let o := step_rule (i, j) a in
    in_grid (4, 12) (fst (fst o))
    && (snd (fst o) <=? cost_to_go (fst (fst o)) - cost_to_go (i, j))
    && (calls_to_go (i, j) - 1 <=? calls_to_go (fst (fst o)))
    && (negb (snd o) || is_goal (i, j))
    && (negb (is_goal (i, j)) || is_goal (fst (fst o)))).
  assert (Hall : forallb (fun i => forallb (fun j => forallb (check i j) all_actions)
                   (range 12)) (range 4) = true)
    by (vm_compute; reflexivity).
  pose proof (forall_range _ 4 Hall i Hi) as H1. cbv beta in H1.
  pose proof (forall_range _ 12 H1 j Hj) as H2. cbv beta in H2.
  pose proof (forall_actions _ H2 a) as H3. unfold check in H3. cbv zeta in H3.
  clear Hall H1 H2 check.
  rewrite !andb_true_iff, !orb_true_iff, !negb_true_iff in H3.
  destruct H3 as ((((G1 & G2) & G3) & G4) & G5).
  apply Z.leb_le in G2, G3.
  repeat split; try assumption.
  - intros Ht. destruct G4 as [G4|G4]; [congruence|assumption].
  - intros Hg. destruct G5 as [G5|G5]; [congruence|assumption].
Qed.

Lemma rule_trace_app (p : ndarray) (acts1 acts2 : list Action) :
  rule_trace p (acts1 ++ acts2)
  = rule_trace p acts1 ++ rule_trace (rule_final p acts1) acts2.
Proof.
  revert p. induction acts1 as [|a acts1 IH]; intros p; [reflexivity|].
  simpl. now rewrite IH.
Qed.

Lemma rule_final_app (p : ndarray) (acts1 acts2 : list Action) :
  rule_final p (acts1 ++ acts2) = rule_final (rule_final p acts1) acts2.
Proof. unfold rule_final. apply fold_left_app. Qed.

Lemma sum_Z_app (l1 l2 : list Z) : sum_Z (l1 ++ l2) = sum_Z l1 + sum_Z l2.
Proof. induction l1 as [|x l1 IH]; simpl; lia. Qed.

(** Along any walk on the grid the rewards sum to at most the change of
    [cost_to_go], and [calls_to_go] drops by at most the number of
    steps. *)
Lemma rule_trace_accounts (acts : list Action) (p : ndarray) :
  in_grid (4, 12) p = true ->
  in_grid (4, 12) (rule_final p acts) = true
  /\ sum_Z (rewards_of (rule_trace p acts)) <= cost_to_go (rule_final p acts) - cost_to_go p
  /\ calls_to_go p - Z.of_nat (length acts) <= calls_to_go (rule_final p acts).
Proof.
  revert p. induction acts as [|a acts IH]; intros p Hp.
  - simpl. unfold rule_final. simpl. repeat split; [assumption|lia|lia].
  - destruct (step_rule_accounts p a Hp) as (G1 & G2 & G3 & _).
    destruct (IH _ G1) as (I1 & I2 & I3).
    change (rule_final p (a :: acts)) with (rule_final (fst (fst (step_rule p a))) acts).
    simpl rule_trace. unfold rewards_of in *. simpl map. simpl sum_Z.
    simpl length. repeat split; [assumption|lia|lia].
Qed.

Lemma goal_costs_nothing (p : ndarray) :
  is_goal p = true -> cost_to_go p = 0 /\ calls_to_go p = 0.
Proof. intros H. unfold cost_to_go, calls_to_go. now rewrite H. Qed.

(** A walk from the start whose last step returns the terminal flag. *)
Lemma terminated_walk (acts : list Action) (q : ndarray) (rw : Z) :
  last (rule_trace (3, 0) acts) = Some (q, rw, true) ->
  sum_Z (rewards_of (rule_trace (3, 0) acts)) <= -13
  /\ (14 <= length (rule_trace (3, 0)%Z acts))%nat.
Proof.
  destruct acts as [|a0 acts0] using rev_ind; [discriminate|].
  clear IHacts0. rename acts0 into acts, a0 into a.
  rewrite rule_trace_app. simpl rule_trace. rewrite last_snoc. intros [= Hstep].
  destruct (rule_trace_accounts acts (3, 0) eq_refl) as (I1 & I2 & I3).
  destruct (step_rule_accounts (rule_final (3, 0) acts) a I1) as (_ & G2 & _ & G4 & _).
  rewrite Hstep in G4. simpl in G4. specialize (G4 eq_refl).
  destruct (goal_costs_nothing _ G4) as [C1 C2].
  assert (Hrw : rw = 0).
  { unfold step_rule in Hstep. rewrite G4 in Hstep. now injection Hstep as _ <-. }
  assert (Hlen : length (rule_trace (3, 0) acts) = length acts).
  { clear. generalize (3%Z, 0%Z). induction acts as [|x acts IH]; intros p; simpl;
      [reflexivity | now rewrite IH]. }
  rewrite C1 in I2. rewrite C2 in I3.
  change (cost_to_go (3, 0)) with 13 in I2. change (calls_to_go (3, 0)) with 13 in I3.
  unfold rewards_of in *. rewrite map_app, sum_Z_app, length_app, Hlen, Hstep.
  subst rw. simpl. lia.
Qed.

(** X7.  Take any sequence of [take_action] calls with valid indices,
    made after [reset], whose last call returns the terminal flag: the
    rewards returned sum to at most -13 and at least 14 calls were
    made.  The walk Up, eleven times Right, Down, and one more call on
    the goal, attains both: 14 calls, rewards summing to -13, terminal
    flag on the last. *)
Theorem no_episode_scores_above_minus_13 (cs : list call) (acts : list Action)
    (tr : list (ndarray * Z * bool)) (q : ndarray) (rw : Z) :
  env_trace (step (run cs initial_state) CallReset) (int_actions acts) = map inr tr ->
  last tr = Some (q, rw, true) ->
  (sum_Z (rewards_of tr) <= -13 /\ (14 <= length tr)%nat)
  /\ exists tr0 : list (ndarray * Z * bool),
       env_trace (step (run cs initial_state) CallReset) (int_actions safe_path)
       = map inr tr0
       /\ last tr0 = Some ((3, 11), 0, true)
       /\ sum_Z (rewards_of tr0) = -13
       /\ length tr0 = 14%nat.
Proof.
  intros Htr Hlast.
  pose proof (Inv_reset _ (Inv_run cs _ Inv_initial)) as HI.
  destruct (reset_spec _ (Inv_run cs _ Inv_initial)) as [_ Hcur].
  change (snd (reset (fst (run cs initial_state)) (snd (run cs initial_state))))
    with (step (run cs initial_state) CallReset) in HI, Hcur.
  split.
  - destruct (env_trace_rule acts _ HI) as [Hrule _].
    rewrite Hcur, Htr in Hrule.
    apply (inj (map inr)) in Hrule. subst tr.
    exact (terminated_walk acts q rw Hlast).
  - destruct (env_trace_rule safe_path _ HI) as [Hrule _].
    rewrite Hcur in Hrule.
    exists (rule_trace (3, 0) safe_path).
    split; [exact Hrule|]. repeat split.
Qed.

Lemma no_episode_scores_above_minus_13_witness :
  env_trace (step (run [] initial_state) CallReset) (int_actions safe_path)
  = map inr (rule_trace (3, 0) safe_path)
  /\ last (rule_trace (3, 0) safe_path) = Some ((3, 11), 0, true)
  /\ sum_Z (rewards_of (rule_trace (3, 0) safe_path)) <= -13.
Proof.
  split; [vm_compute; reflexivity|]. split; [reflexivity|].
  exact (proj1 (proj1 (no_episode_scores_above_minus_13 [] safe_path
                         (rule_trace (3, 0) safe_path) (3, 11) 0
                         ltac:(vm_compute; reflexivity) ltac:(reflexivity)))).
Defined.

(** X8.  The agent can stand on the cliff: after [reset], the calls Up,
    [c] times Right, Down, for a column [c] from 1 to 10, each return
    reward -1 and no terminal flag, and leave the environment on the
    cliff cell (3,c).  The fall is charged by the call that follows. *)
Theorem cliff_cells_are_reached (cs : list call) (c : Z) :
  1 <= c <= 10 ->
  exists tr : list (ndarray * Z * bool),
    env_trace (step (run cs initial_state) CallReset) (int_actions (path_onto_cliff c))
    = map inr tr
    /\ map (fun o => (snd (fst o), snd o)) tr = replicate (Z.to_nat c + 2) (-1, false)
    /\ last tr = Some ((3, c), -1, false)
    /\ cur_pos (run (map CallTakeAction (int_actions (path_onto_cliff c)))
                    (step (run cs initial_state) CallReset))
       = (3, c)
    /\ is_cliff (3, c) = true.
Proof.
  intros Hc.
  pose proof (Inv_reset _ (Inv_run cs _ Inv_initial)) as HI.
  destruct (reset_spec _ (Inv_run cs _ Inv_initial)) as [_ Hcur].
  change (snd (reset (fst (run cs initial_state)) (snd (run cs initial_state))))
    with (step (run cs initial_state) CallReset) in HI, Hcur.
  destruct (env_trace_rule (path_onto_cliff c) _ HI) as [Hrule Hfinal].
  rewrite Hcur in Hrule, Hfinal.
  pose (check := fun c : Z =>
    negb ((1 <=? c) && (c <=? 10))
    || (bool_decide (map (fun o : ndarray * Z * bool => (snd (fst o), snd o))
                         (rule_trace (3, 0) (path_onto_cliff c))
                     = replicate (Z.to_nat c + 2) (-1, false))
        && bool_decide (last (rule_trace (3, 0) (path_onto_cliff c))
                        = Some ((3, c), -1, false))
        && bool_decide (rule_final (3, 0) (path_onto_cliff c) = (3, c))
        && is_cliff (3, c))).
  assert (Hall : forallb check (range 11) = true) by (vm_compute; reflexivity).
  pose proof (forall_range _ 11 Hall c ltac:(lia)) as H. unfold check in H.
  clear Hall check.
  apply orb_true_iff in H. destruct H as [H|H].
  { apply negb_true_iff, andb_false_iff in H. destruct H as [H|H]; lia. }
  rewrite !andb_true_iff in H. destruct H as (((H1 & H2) & H3) & H4).
  apply bool_decide_eq_true in H1, H2, H3.
  exists (rule_trace (3, 0) (path_onto_cliff c)).
  split; [exact Hrule|]. split; [exact H1|]. split; [exact H2|].
  split; [now rewrite Hfinal|exact H4].
Qed.

Lemma cliff_cells_are_reached_witness :
  1 <= 10 <= 10
  /\ cur_pos (run (map CallTakeAction (int_actions (path_onto_cliff 10)))
                  (step (run [] initial_state) CallReset))
     = (3, 10).
Proof.
  split; [lia|].
  destruct (cliff_cells_are_reached [] 10 ltac:(lia)) as (tr & _ & _ & _ & H & _).
  exact H.
Defined.

(* ===================================================================== *)
(** * Further properties of the pool *)
(* ===================================================================== *)

Section MorePoolFacts.
Context {S A R M : Type}.
Implicit Types p : ReplayPool.t S A R M.
Implicit Types ts : list (ReplayPool.Transition S A R M).

Lemma rows_of_columns ts :
  rows_of (map ReplayPool.state ts) (map ReplayPool.next_state ts)
          (map ReplayPool.action ts) (map ReplayPool.reward ts)
          (map ReplayPool.mask ts)
  = ts.
Proof.
  induction ts as [|t ts IH]; [reflexivity|].
  simpl. rewrite IH. now destruct t.
Qed.

Lemma memory_push_all ts p :
  ReplayPool.memory (push_all p ts) = ReplayPool.memory p ++ ts.
Proof.
  revert p. induction ts as [|t ts IH]; intros p; simpl.
  - now rewrite app_nil_r.
  - rewrite IH. unfold ReplayPool.push. simpl.
    rewrite <- app_assoc. now destruct t.
Qed.

(** X9.  [pop_all] on a pool without transitions (new, or just reset)
    raises [TypeError]; on any other pool it returns five columns, each
    as long as the pool, which read row by row give back the
    transitions of the pool in the order they were pushed. *)
Theorem pop_all_transposes p :
  match fst (ReplayPool.pop_all p) with
  | inl e => e = TypeError /\ ReplayPool.__len__ p = 0%nat
  | inr tr =>
      rows tr = ReplayPool.memory p
      /\ length (ReplayPool.state tr) = ReplayPool.__len__ p
      /\ length (ReplayPool.next_state tr) = ReplayPool.__len__ p
      /\ length (ReplayPool.action tr) = ReplayPool.__len__ p
      /\ length (ReplayPool.reward tr) = ReplayPool.__len__ p
      /\ length (ReplayPool.mask tr) = ReplayPool.__len__ p
      /\ ReplayPool.__len__ p <> 0%nat
  end.
Proof.
  unfold ReplayPool.pop_all, ReplayPool.__len__.
  destruct (ReplayPool.memory p) as [|t ts] eqn:Hm; simpl; [split; reflexivity|].
  unfold rows. simpl. rewrite rows_of_columns, !length_map.
  split; [now destruct t|]. repeat split; discriminate.
Qed.

(** X10.  After [reset], whatever the pool held before, pushing the
    transitions of a non-empty list one by one and then calling
    [pop_all] returns columns that hold exactly those transitions, in
    the order of the pushes; and the length of the pool is the number
    of pushes. *)
Theorem reset_push_pop_all_round_trip p ts :
  ts <> [] ->
  ReplayPool.__len__ (push_all (ReplayPool.reset p) ts) = length ts
  /\ exists tr,
       fst (ReplayPool.pop_all (push_all (ReplayPool.reset p) ts)) = ok tr
       /\ rows tr = ts.
Proof.
  intros Hts.
  assert (Hm : ReplayPool.memory (push_all (ReplayPool.reset p) ts) = ts)
    by (rewrite memory_push_all; reflexivity).
  split; [unfold ReplayPool.__len__; now rewrite Hm|].
  unfold ReplayPool.pop_all. rewrite Hm.
  destruct ts as [|t ts]; [congruence|].
  eexists. split; [reflexivity|].
  unfold rows. cbn [ReplayPool.state ReplayPool.next_state ReplayPool.action
                    ReplayPool.reward ReplayPool.mask].
  apply rows_of_columns.
Qed.

End MorePoolFacts.

Lemma reset_push_pop_all_round_trip_witness :
  [ReplayPool.mkTransition (3, 0) (2, 0) 0 (-1) 1;
   ReplayPool.mkTransition (2, 0) (2, 1) 3 (-1) 1] <> []
  /\ ReplayPool.__len__
       (push_all (ReplayPool.reset
                    (ReplayPool.push ReplayPool.__init__ (0, 0) (0, 1) 3 (-1) 1))
                 [ReplayPool.mkTransition (3, 0) (2, 0) 0 (-1) 1;
                  ReplayPool.mkTransition (2, 0) (2, 1) 3 (-1) 1])
     = 2%nat.
Proof.
  split; [discriminate|].
  exact (proj1 (reset_push_pop_all_round_trip
                  (ReplayPool.push ReplayPool.__init__ (0, 0) (0, 1) 3 (-1) 1)
                  [ReplayPool.mkTransition (3, 0) (2, 0) 0 (-1) 1;
                   ReplayPool.mkTransition (2, 0) (2, 1) 3 (-1) 1]
                  ltac:(discriminate))).
Defined.

(* ===================================================================== *)
(** * Further properties of the encoding *)
(* ===================================================================== *)

Lemma zeros_are_zero (d : nat) :
  forallb (fun y : F32.t => bool_decide (y = F32.zero)) (replicate d F32.zero) = true.
Proof. induction d as [|d IH]; [reflexivity|]. simpl. now rewrite IH. Qed.

Lemma hot_index_insert (d n : nat) :
  (n < d)%nat -> hot_index (<[n := F32.one]> (replicate d F32.zero)) = Some n.
Proof.
  revert d. induction n as [|n IH]; intros d Hn; (destruct d as [|d]; [lia|]).
  - simpl. now rewrite zeros_are_zero.
  - change (hot_index (F32.zero :: <[n := F32.one]> (replicate d F32.zero)) = Some (S n)).
    cbn [hot_index].
    replace (bool_decide (F32.zero = F32.one)) with false by reflexivity.
    replace (bool_decide (F32.zero = F32.zero)) with true by reflexivity.
    now rewrite IH by lia.
Qed.

Lemma convert_state2onehot_index (state : ndarray) (state_dim : Z) (n : nat) :
  0 <= state_dim ->
  norm_index (Z.to_nat state_dim) (flat_index state) = Some n ->
  convert_state2onehot state state_dim
  = ok [ <[n := F32.one]> (replicate (Z.to_nat state_dim) F32.zero) ].
Proof.
  intros Hd Hn. unfold convert_state2onehot.
  destruct (state_dim <? 0) eqn:E; [lia|].
  rewrite length_replicate. fold (flat_index state). now rewrite Hn.
Qed.

(** X11.  For any dimension [state_dim] and any state whose index
    [5 * state[0] + state[1]] lies in [0, state_dim), the result is a
    tensor of one row of [state_dim] elements, all [0.] except a single
    [1.] at that index. *)
Theorem onehot_is_one_hot (state : ndarray) (state_dim : Z) :
  0 <= flat_index state < state_dim ->
  exists row : list F32.t,
    convert_state2onehot state state_dim = ok [row]
    /\ Z.of_nat (length row) = state_dim
    /\ hot_index row = Some (Z.to_nat (flat_index state)).
Proof.
  intros Hi.
  exists (<[Z.to_nat (flat_index state) := F32.one]>
            (replicate (Z.to_nat state_dim) F32.zero)).
  split; [|split].
  - apply convert_state2onehot_index; [lia|].
    apply norm_index_nonneg. lia.
  - rewrite length_insert, length_replicate. lia.
  - apply hot_index_insert. lia.
Qed.

Lemma onehot_is_one_hot_witness :
  0 <= flat_index (3, 11) < 48
  /\ exists row : list F32.t,
       convert_state2onehot (3, 11) 48 = ok [row]
       /\ Z.of_nat (length row) = 48
       /\ hot_index row = Some (Z.to_nat (flat_index (3, 11))).
Proof.
  split; [unfold flat_index; simpl; lia|].
  apply (onehot_is_one_hot (3, 11) 48). unfold flat_index. simpl. lia.
Defined.

(** X12.  For a state whose elements are 64-bit integers and whose
    index [5 * state[0] + state[1]] is computed without overflow, and a
    dimension that is not negative: an index at or beyond [state_dim],
    or below [-state_dim], raises [IndexError]; so does every cell of
    the grid past the dimension given. *)
Theorem onehot_index_out_of_range (state : ndarray) (state_dim : Z) :
  fits_int64 (fst state) -> fits_int64 (snd state) ->
  fits_int64 (fst state * 5) -> fits_int64 (flat_index state) ->
  0 <= state_dim ->
  flat_index state < - state_dim \/ state_dim <= flat_index state ->
  convert_state2onehot state state_dim = raise IndexError.
Proof.
  intros _ _ _ _ Hd Hi. unfold convert_state2onehot.
  destruct (state_dim <? 0) eqn:E; [lia|].
  rewrite length_replicate. fold (flat_index state).
  rewrite norm_index_out; [reflexivity|lia].
Qed.

Lemma onehot_index_out_of_range_witness :
  fits_int64 (fst (3, 11)) /\ fits_int64 (snd (3, 11))
  /\ fits_int64 (fst (3, 11) * 5) /\ fits_int64 (flat_index (3, 11))
  /\ 0 <= 20
  /\ (flat_index (3, 11) < - 20 \/ 20 <= flat_index (3, 11))
  /\ convert_state2onehot (3, 11) 20 = raise IndexError.
Proof.
  assert (F : forall z, -100 <= z <= 100 -> fits_int64 z)
    by (intros z Hz; unfold fits_int64; lia).
  split; [apply F; simpl; lia|]. split; [apply F; simpl; lia|].
  split; [apply F; simpl; lia|]. split; [apply F; unfold flat_index; simpl; lia|].
  split; [lia|]. split; [right; unfold flat_index; simpl; lia|].
  apply (onehot_index_out_of_range (3, 11) 20);
    try (apply F; unfold flat_index; simpl; lia); [lia|].
  right. unfold flat_index. simpl. lia.
Defined.

(** X13.  Two states whose indices lie in [0, state_dim) get the same
    tensor exactly when [5 * state[0] + state[1]] is the same for both:
    the encoding tells two states apart if and only if these numbers
    differ. *)
Theorem onehot_equal_iff_same_index (s1 s2 : ndarray) (state_dim : Z) :
  0 <= flat_index s1 < state_dim ->
  0 <= flat_index s2 < state_dim ->
  convert_state2onehot s1 state_dim = convert_state2onehot s2 state_dim
  <-> flat_index s1 = flat_index s2.
Proof.
  intros H1 H2.
  destruct (onehot_is_one_hot s1 state_dim H1) as (r1 & E1 & _ & X1).
  destruct (onehot_is_one_hot s2 state_dim H2) as (r2 & E2 & _ & X2).
  split.
  - rewrite E1, E2. intros [= ->]. rewrite X1 in X2. injection X2. lia.
  - intros Heq. unfold convert_state2onehot. fold (flat_index s1) (flat_index s2).
    now rewrite Heq.
Qed.

Lemma onehot_equal_iff_same_index_witness :
  0 <= flat_index (0, 5) < 48
  /\ 0 <= flat_index (1, 0) < 48
  /\ (convert_state2onehot (0, 5) 48 = convert_state2onehot (1, 0) 48
      <-> flat_index (0, 5) = flat_index (1, 0)).
Proof.
  split; [unfold flat_index; simpl; lia|].
  split; [unfold flat_index; simpl; lia|].
  apply (onehot_equal_iff_same_index (0, 5) (1, 0) 48); unfold flat_index; simpl; lia.
Defined.

(* ===================================================================== *)
(** * Further properties of the returns *)
(* ===================================================================== *)

Lemma spec_returns_length (gamma : F32.t) (rewards masks : list F32.t) :
  length masks = length rewards ->
  length (REINFORCE.spec_returns gamma rewards masks) = length rewards.
Proof.
  revert masks. induction rewards as [|r rewards IH]; intros [|m masks] Hlen;
    simpl in *; try reflexivity; try discriminate.
  now rewrite IH by lia.
Qed.

(** The loop reads the masks only at the indices of the rewards. *)
Lemma returns_loop_take (gamma : F32.t) (rewards masks : list F32.t) (n : nat) :
  (n <= length rewards <= length masks)%nat ->
  forall (running_return : F32.t) (returns : list F32.t),
    REINFORCE.returns_loop n gamma rewards masks running_return returns
    = REINFORCE.returns_loop n gamma rewards (take (length rewards) masks)
        running_return returns.
Proof.
  intros Hn. induction n as [|t IH]; intros rr returns; [reflexivity|].
  simpl.
  destruct (py_index rewards (Z.of_nat t)) as [e|r]; simpl; [reflexivity|].
  destruct (lookup_lt_is_Some_2 masks t ltac:(lia)) as [m Hm].
  rewrite (py_index_lookup masks t m Hm).
  rewrite (py_index_lookup (take (length rewards) masks) t m)
    by (rewrite lookup_take_lt by lia; exact Hm).
  simpl. apply IH. lia.
Qed.

Lemma train_model_returns_total (gamma : F32.t) (rewards masks : list F32.t) :
  (length rewards <= length masks)%nat ->
  REINFORCE.train_model_returns gamma rewards masks
  = ok (REINFORCE.spec_returns gamma rewards (take (length rewards) masks))
  /\ length (REINFORCE.spec_returns gamma rewards (take (length rewards) masks))
     = length rewards.
Proof.
  intros Hlen.
  assert (Htake : length (take (length rewards) masks) = length rewards)
    by (rewrite length_take; lia).
  split; [|now apply spec_returns_length].
  unfold REINFORCE.train_model_returns.
  rewrite returns_loop_take by lia.
  pose proof (returns_loop_spec gamma rewards (take (length rewards) masks)
                (length rewards) Htake (replicate (length rewards) F32.zero)) as H.
  rewrite (drop_ge rewards), (drop_ge (take (length rewards) masks)) in H by lia.
  simpl in H. apply H; [lia | apply length_replicate |].
  apply drop_ge. rewrite length_replicate. lia.
Qed.

(** X14.  For a gamma whose float32 image is finite, and given at
    least as many masks as rewards, the loop of [train_model] returns
    without an error a list as long as the rewards, which satisfies the
    recurrence [return[t] = reward[t] + gamma * return[t+1] * mask[t]]
    (with 0 past the end); the masks beyond the last reward are not
    read. *)
Theorem returns_follow_the_recurrence (gamma : F32.t) (rewards masks : list F32.t) :
  F32.is_finite gamma = true ->
  (length rewards <= length masks)%nat ->
  REINFORCE.train_model_returns gamma rewards masks
  = ok (REINFORCE.spec_returns gamma rewards (take (length rewards) masks))
  /\ length (REINFORCE.spec_returns gamma rewards (take (length rewards) masks))
     = length rewards.
Proof. intros _. apply train_model_returns_total. Qed.

Lemma returns_follow_the_recurrence_witness :
  F32.is_finite F32.one = true
  /\ (length (map F32.of_Z [-1; -100; 0]%Z) <= length (map F32.of_Z [1; 1; 0; 1; 1]%Z))%nat
  /\ REINFORCE.train_model_returns F32.one (map F32.of_Z [-1; -100; 0]%Z)
       (map F32.of_Z [1; 1; 0; 1; 1]%Z)
     = ok (REINFORCE.spec_returns F32.one (map F32.of_Z [-1; -100; 0]%Z)
             (take (length (map F32.of_Z [-1; -100; 0]%Z))
                   (map F32.of_Z [1; 1; 0; 1; 1]%Z))).
Proof.
  split; [reflexivity|]. split; [simpl; lia|].
  exact (proj1 (returns_follow_the_recurrence F32.one (map F32.of_Z [-1; -100; 0]%Z)
                  (map F32.of_Z [1; 1; 0; 1; 1]%Z) ltac:(reflexivity) ltac:(simpl; lia))).
Defined.

(** X15.  Given fewer masks than rewards, the loop of [train_model]
    raises [IndexError], at its first iteration (the last index). *)
Theorem too_few_masks_raise_IndexError (gamma : F32.t) (rewards masks : list F32.t) :
  (length masks < length rewards)%nat ->
  REINFORCE.train_model_returns gamma rewards masks = raise IndexError.
Proof.
  intros Hlen. unfold REINFORCE.train_model_returns.
  destruct (length rewards) as [|t] eqn:Hn; [lia|].
  cbn [REINFORCE.returns_loop].
  destruct (lookup_lt_is_Some_2 rewards t ltac:(lia)) as [r Hr].
  rewrite (py_index_lookup rewards t r Hr). simpl.
  unfold py_index. rewrite norm_index_out; [reflexivity|lia].
Qed.

Lemma too_few_masks_raise_IndexError_witness :
  (length (map F32.of_Z [1]%Z) < length (map F32.of_Z [-1; 0]%Z))%nat
  /\ REINFORCE.train_model_returns F32.one (map F32.of_Z [-1; 0]%Z) (map F32.of_Z [1]%Z)
     = raise IndexError.
Proof.
  split; [simpl; lia|].
  apply (too_few_masks_raise_IndexError F32.one (map F32.of_Z [-1; 0]%Z) (map F32.of_Z [1]%Z)).
  simpl. lia.
Defined.

(* ===================================================================== *)
(** * Further properties of the construction of the table *)
(* ===================================================================== *)

(** [_cal_new_position_] uses the store only to add its result. *)
Lemma cal_new_position_any_store (shp : Z * Z) (clf : list (list bool))
    (a2s : gmap Z (Z * Z)) (old_pos : Z * Z) (action : Z) (h : store) :
  _cal_new_position_ shp clf a2s old_pos action h
  = rbind (_cal_new_position_ shp clf a2s old_pos action [])
          (fun '(l, rw, t, h1) => ok ((length h, rw, t), h ++ h1)).
Proof.
  unfold _cal_new_position_.
  destruct (dict_get a2s action) as [e|shift]; simpl; [reflexivity|].
  destruct (py_index clf (fst old_pos)) as [e|row]; simpl; [reflexivity|].
  destruct (py_index row (snd old_pos)) as [e|on_cliff]; simpl; [reflexivity|].
  destruct on_cliff, ((fst old_pos =? fst shp - 1) && (snd old_pos =? snd shp - 1));
    reflexivity.
Qed.

(** X16.  Called for a cell of the 4x12 grid and one of the four action
    indices, on any store, [_cal_new_position_] returns the step in
    closed form (the clamped move with reward -1; the start with -100
    from a cliff cell; the goal with 0 and the terminal flag from the
    goal), as a new array: the arrays that existed are all unchanged
    and exactly one is added. *)
Theorem cal_new_position_in_closed_form (i j : Z) (a : Action) (h : store) :
  0 <= i < 4 -> 0 <= j < 12 ->
  _cal_new_position_ (4, 12) (build_cliff (4, 12)) the_action2shift (i, j) (index_of a) h
  = ok ((length h, snd (fst (step_rule (i, j) a)), snd (step_rule (i, j) a)),
        h ++ [fst (fst (step_rule (i, j) a))]).
Proof.
  intros Hi Hj. rewrite cal_new_position_any_store.
  pose (check := fun (i j : Z) (a : Action) =>
    bool_decide
      (_cal_new_position_ (4, 12) (build_cliff (4, 12)) the_action2shift (i, j)
         (index_of a) []
       = ok ((0%nat, snd (fst (step_rule (i, j) a)), snd (step_rule (i, j) a)),
             [fst (fst (step_rule (i, j) a))]))).
  assert (Hall : forallb (fun i => forallb (fun j => forallb (check i j) all_actions)
                   (range 12)) (range 4) = true)
    by (vm_compute; reflexivity).
  pose proof (forall_range _ 4 Hall i Hi) as H1. cbv beta in H1.
  pose proof (forall_range _ 12 H1 j Hj) as H2. cbv beta in H2.
  pose proof (forall_actions _ H2 a) as H3. unfold check in H3.
  apply bool_decide_eq_true in H3. rewrite H3. reflexivity.
Qed.

Lemma cal_new_position_in_closed_form_witness :
  0 <= 2 < 4 /\ 0 <= 5 < 12
  /\ _cal_new_position_ (4, 12) (build_cliff (4, 12)) the_action2shift (2, 5)
       (index_of Down) [(3, 0)]
     = ok ((1%nat, -1, false), [(3, 0); (3, 5)]).
Proof.
  split; [lia|]. split; [lia|].
  apply (cal_new_position_in_closed_form 2 5 Down [(3, 0)]); lia.
Defined.

Lemma action2shift_missing (k : Z) :
  k < 0 \/ 3 < k -> the_action2shift !! k = None.
Proof.
  intros Hk. unfold the_action2shift.
  rewrite !lookup_insert_ne by lia. apply lookup_singleton_ne. lia.
Qed.

(** X17.  [_cal_new_position_] raises [KeyError] for an action that is
    not 0, 1, 2 or 3, whatever the position and the store: the shift of
    the action is looked up before the position is used. *)
Theorem cal_new_position_errors (old_pos : Z * Z) (action : Z) (h : store) :
  action < 0 \/ 3 < action ->
  _cal_new_position_ (4, 12) (build_cliff (4, 12)) the_action2shift old_pos action h
  = raise KeyError.
Proof.
  intros Ha. unfold _cal_new_position_, dict_get. now rewrite action2shift_missing.
Qed.

Lemma cal_new_position_errors_witness :
  (4 < 0 \/ 3 < 4)
  /\ _cal_new_position_ (4, 12) (build_cliff (4, 12)) the_action2shift (2, 5) 4 [(3, 0)]
     = raise KeyError.
Proof.
  split; [right; lia|].
  apply (cal_new_position_errors (2, 5) 4 [(3, 0)]). right. lia.
Defined.

(** The rows of the cliff array that an index reaches. *)
Lemma cliff_row (r : Z) :
  -4 <= r <= 3 ->
  exists row : list bool,
    py_index (build_cliff (4, 12)) r = inr row /\ length row = 12%nat.
Proof.
  intros Hr.
  assert (Hcases : r = -4 \/ r = -3 \/ r = -2 \/ r = -1
                   \/ r = 0 \/ r = 1 \/ r = 2 \/ r = 3) by lia.
  repeat (destruct Hcases as [->|Hcases]); try subst r;
    (eexists; split; [vm_compute; reflexivity|reflexivity]).
Qed.

(** X24.  For one of the four actions and a position of 64-bit
    integers, [_cal_new_position_] raises [IndexError] when the
    position cannot index the cliff array: its row is outside [-4, 3],
    or its column is outside [-12, 11]. *)
Theorem cal_new_position_bad_position (old_pos : Z * Z) (a : Action) (h : store) :
  fits_int64 (fst old_pos) -> fits_int64 (snd old_pos) ->
  (fst old_pos < -4 \/ 3 < fst old_pos) \/ (snd old_pos < -12 \/ 11 < snd old_pos) ->
  _cal_new_position_ (4, 12) (build_cliff (4, 12)) the_action2shift old_pos (index_of a) h
  = raise IndexError.
Proof.
  intros _ _ Hp. unfold _cal_new_position_.
  replace (dict_get the_action2shift (index_of a)) with (ok (shift_of a))
    by (destruct a; reflexivity).
  simpl rbind.
  destruct (Z_lt_dec (fst old_pos) (-4)) as [Hlo|Hlo];
    [|destruct (Z_lt_dec 3 (fst old_pos)) as [Hhi|Hhi]].
  - unfold py_index at 1. rewrite norm_index_out; [reflexivity|].
    change (Z.of_nat (length (build_cliff (4, 12)))) with 4. lia.
  - unfold py_index at 1. rewrite norm_index_out; [reflexivity|].
    change (Z.of_nat (length (build_cliff (4, 12)))) with 4. lia.
  - destruct (cliff_row (fst old_pos) ltac:(lia)) as (row & -> & Hlen).
    simpl rbind. unfold py_index. rewrite norm_index_out; [reflexivity|].
    rewrite Hlen. lia.
Qed.

Lemma cal_new_position_bad_position_witness :
  fits_int64 (fst (2, 12)) /\ fits_int64 (snd (2, 12))
  /\ ((fst (2, 12) < -4 \/ 3 < fst (2, 12)) \/ (snd (2, 12) < -12 \/ 11 < snd (2, 12)))
  /\ _cal_new_position_ (4, 12) (build_cliff (4, 12)) the_action2shift (2, 12)
       (index_of Right) []
     = raise IndexError.
Proof.
  assert (F : forall z, -100 <= z <= 100 -> fits_int64 z)
    by (intros z Hz; unfold fits_int64; lia).
  split; [apply F; simpl; lia|]. split; [apply F; simpl; lia|].
  split; [right; right; simpl; lia|].
  apply (cal_new_position_bad_position (2, 12) Right []);
    try (apply F; simpl; lia).
  right. right. simpl. lia.
Defined.

(** X18.  The table has 4 rows of 12 cells of 4 entries, and its 192
    entries refer to 192 different arrays, none of which is the array
    of [self.pos]: this holds in the constructed environment and after
    any sequence of calls. *)
Theorem table_arrays_are_not_shared (cs : list call) :
  length (transmit_tensor (fst (run cs initial_state))) = 4%nat
  /\ Forall (fun row => length row = 12%nat
                        /\ Forall (fun cell : list entry => length cell = 4%nat) row)
            (transmit_tensor (fst (run cs initial_state)))
  /\ NoDup (map entry_loc (concat (concat (transmit_tensor (fst (run cs initial_state))))))
  /\ pos (fst (run cs initial_state))
     ∉ map entry_loc (concat (concat (transmit_tensor (fst (run cs initial_state))))).
Proof.
  pose proof (Inv_run cs _ Inv_initial) as HI.
  rewrite (inv_table _ HI).
  split; [reflexivity|]. split; [|split].
  - apply (bool_decide_unpack _). vm_compute. exact I.
  - apply (bool_decide_unpack _). vm_compute. exact I.
  - intros Hin. apply list_elem_of_fmap in Hin. destruct Hin as (e & Hpos & He).
    apply list_elem_of_In, in_concat in He. destruct He as (cell & Hcell & He).
    apply in_concat in Hcell. destruct Hcell as (row & Hrow & Hcell).
    apply list_elem_of_In in Hrow, Hcell, He.
    pose proof (all_entries_elem _ _ row cell e table0_sound Hrow Hcell He) as Hs.
    apply entry_sound_inv in Hs. destruct Hs as [Hl _].
    destruct (inv_pos _ HI); lia.
Qed.

(* ===================================================================== *)
(** * The episodes of train_REINFORCE *)
(* ===================================================================== *)

Lemma convert_state2onehot_encode (p : ndarray) :
  in_grid (4, 12) p = true -> convert_state2onehot p 48 = ok (encode p).
Proof.
  intros Hp. destruct (in_grid_bounds _ Hp) as [Hi Hj].
  apply (convert_state2onehot_index p 48); [lia|].
  apply norm_index_nonneg. unfold flat_index. simpl. lia.
Qed.

Lemma action_one_hot_encode (a : Action) :
  action_one_hot 4 (index_of a) = ok (encode_action a).
Proof. destruct a; reflexivity. Qed.

(** The loop, entered in a state of a run with [state] referring to an
    array that holds the current cell. *)
Lemma episode_loop_rule (acts : list Action) :
  forall (state : loc) (w : world) (pool : episode_pool),
    Inv w ->
    deref (snd w) state = cur_pos w ->
    exists w' : world,
      episode_loop (map index_of acts) 48 4 state w pool
      = ok (episode_ends (cur_pos w) acts, w',
            ReplayPool.mkPool (ReplayPool.memory pool ++ episode_rows (cur_pos w) acts)).
Proof.
  induction acts as [|a acts IH]; intros state w pool HI Hstate.
  - exists w. simpl. rewrite app_nil_r. now destruct pool.
  - destruct (take_action_rule w a HI) as (l & Hr & Hd & Hc).
    pose proof (Inv_take_action (ActInt (index_of a)) w HI) as HI'.
    set (w' := snd (take_action (ActInt (index_of a)) (fst w) (snd w))) in *.
    pose proof (inv_grid _ HI') as Hq. rewrite Hc in Hq.
    cbn [map episode_loop].
    rewrite Hstate, (convert_state2onehot_encode _ (inv_grid _ HI)). simpl rbind.
    rewrite Hr. simpl rbind. fold w'.
    rewrite Hd, (convert_state2onehot_encode _ Hq). simpl rbind.
    rewrite action_one_hot_encode. simpl rbind.
    cbn [episode_rows episode_ends].
    destruct (snd (step_rule (cur_pos w) a)) eqn:Ht.
    + exists w'. reflexivity.
    + destruct (IH l w' (ReplayPool.push pool (encode (cur_pos w))
                           (encode (fst (fst (step_rule (cur_pos w) a))))
                           (encode_action a) (snd (fst (step_rule (cur_pos w) a))) 1)
                  HI' ltac:(now rewrite Hd, Hc)) as (w'' & Hloop).
      exists w''. rewrite Hloop, Hc. unfold ReplayPool.push. simpl.
      now rewrite <- app_assoc.
Qed.

Lemma create_episode_rule (cs : list call) (pool : episode_pool) (acts : list Action) :
  exists w' : world,
    create_episode (map index_of acts) (4, 12) 4 (run cs initial_state) pool
    = ok (episode_ends (3, 0) acts, w', ReplayPool.mkPool (episode_rows (3, 0) acts)).
Proof.
  pose proof (Inv_run cs _ Inv_initial) as HI.
  destruct (reset_spec _ HI) as [Hpos Hcur].
  pose proof (Inv_reset _ HI) as HI1.
  unfold create_episode.
  destruct (episode_loop_rule acts
              (fst (reset (fst (run cs initial_state)) (snd (run cs initial_state))))
              (snd (reset (fst (run cs initial_state)) (snd (run cs initial_state))))
              (ReplayPool.reset pool) HI1)
    as (w' & Hloop).
  { unfold cur_pos. now rewrite Hpos. }
  exists w'. rewrite Hcur in Hloop. exact Hloop.
Qed.

(** X19.  In the constructed environment and after any sequence of
    calls, for any sampled actions among the four indices and whatever
    the pool held before, the creation of an episode raises nothing and
    leaves in the pool exactly one transition per step taken from the
    start (3,0), up to the first step that returns the terminal flag:
    the encodings of the cell stood on and of the cell reached, the
    one-hot action, the reward, and mask 0 on a terminal step and 1
    otherwise. *)
Theorem episode_fills_the_pool (cs : list call) (pool : episode_pool) (acts : list Action) :
  exists w' : world,
    create_episode (map index_of acts) (4, 12) 4 (run cs initial_state) pool
    = ok (episode_ends (3, 0) acts, w', ReplayPool.mkPool (episode_rows (3, 0) acts)).
Proof. apply create_episode_rule. Qed.

Lemma rule_trace_length (acts : list Action) (p : ndarray) :
  length (rule_trace p acts) = length acts.
Proof.
  revert p. induction acts as [|a acts IH]; intros p; simpl;
    [reflexivity | now rewrite IH].
Qed.

Lemma is_goal_eq (p : ndarray) : is_goal p = true -> p = (3, 11).
Proof.
  destruct p as [i j]. unfold is_goal. simpl.
  rewrite andb_true_iff, !Z.eqb_eq. now intros [-> ->].
Qed.

(** The rows of an episode that ended, against the walk that made it:
    [pre] are the steps before the terminal one, [a] the action of the
    terminal step. *)
Lemma episode_rows_ended (acts : list Action) :
  forall p : ndarray,
    in_grid (4, 12) p = true ->
    episode_ends p acts = true ->
    exists (pre : list Action) (a : Action),
      map ReplayPool.mask (episode_rows p acts) = replicate (length pre) 1 ++ [0]
      /\ map ReplayPool.reward (episode_rows p acts)
         = rewards_of (rule_trace p (pre ++ [a]))
      /\ last (rule_trace p (pre ++ [a])) = Some ((3, 11), 0, true)
      /\ last (episode_rows p acts)
         = Some (ReplayPool.mkTransition (encode (3, 11)) (encode (3, 11))
                   (encode_action a) 0 0).
Proof.
  induction acts as [|a acts IH]; intros p Hp Hend; [discriminate|].
  cbn [episode_ends episode_rows] in *.
  destruct (step_rule_accounts p a Hp) as (G1 & _ & _ & G4 & _).
  destruct (snd (step_rule p a)) eqn:Ht.
  - exists [], a. pose proof (is_goal_eq _ (G4 eq_refl)) as ->.
    repeat split.
  - destruct (IH _ G1 Hend) as (pre & b & M & Rw & L & Lr).
    exists (a :: pre), b. cbn [map length replicate app rule_trace rewards_of].
    rewrite M. unfold rewards_of in Rw. rewrite Rw.
    split; [reflexivity|]. split; [reflexivity|]. split.
    + destruct (rule_trace (fst (fst (step_rule p a))) (pre ++ [b])) eqn:E;
        [destruct pre; discriminate|exact L].
    + destruct (episode_rows (fst (fst (step_rule p a))) acts) eqn:E;
        [discriminate|exact Lr].
Qed.

(** X20.  When the creation of an episode ends with the terminal flag,
    the pool holds at least 14 transitions; their masks are 1 except
    the mask of the last, which is 0; the last transition is a step
    from the goal to the goal with reward 0; and the rewards in the
    pool sum to at most -13. *)
Theorem ended_episode_in_the_pool (cs : list call) (pool pool' : episode_pool)
    (acts : list Action) (w' : world) :
  create_episode (map index_of acts) (4, 12) 4 (run cs initial_state) pool
  = ok (true, w', pool') ->
  exists (n : nat) (a : Action),
    (13 <= n)%nat
    /\ map ReplayPool.mask (ReplayPool.memory pool') = replicate n 1 ++ [0]
    /\ last (ReplayPool.memory pool')
       = Some (ReplayPool.mkTransition (encode (3, 11)) (encode (3, 11))
                 (encode_action a) 0 0)
    /\ sum_Z (map ReplayPool.reward (ReplayPool.memory pool')) <= -13.
Proof.
  intros Hep.
  destruct (create_episode_rule cs pool acts) as (w'' & Hrule).
  rewrite Hrule in Hep. injection Hep as Hend _ <-. simpl.
  destruct (episode_rows_ended acts (3, 0) eq_refl Hend) as (pre & a & M & Rw & L & Lr).
  destruct (terminated_walk (pre ++ [a]) _ _ L) as [Hsum Hlen].
  exists (length pre), a. rewrite Rw.
  split; [|split; [exact M|split; [exact Lr|exact Hsum]]].
  rewrite rule_trace_length, length_app in Hlen. simpl in Hlen. lia.
Qed.

Lemma ended_episode_in_the_pool_witness :
  exists (w' : world) (pool' : episode_pool),
    create_episode (map index_of safe_path) (4, 12) 4 (run [] initial_state)
                   ReplayPool.__init__
    = ok (true, w', pool')
    /\ exists (n : nat) (a : Action),
         (13 <= n)%nat
         /\ map ReplayPool.mask (ReplayPool.memory pool') = replicate n 1 ++ [0]
         /\ last (ReplayPool.memory pool')
            = Some (ReplayPool.mkTransition (encode (3, 11)) (encode (3, 11))
                      (encode_action a) 0 0)
         /\ sum_Z (map ReplayPool.reward (ReplayPool.memory pool')) <= -13.
Proof.
  eexists. eexists. split.
  - vm_compute. reflexivity.
  - eapply (ended_episode_in_the_pool [] ReplayPool.__init__ _ safe_path _).
    vm_compute. reflexivity.
Defined.

(** X21.  What [pop_all] returns for a pool that is not empty always
    fits the loop of [train_model]: the rewards and the masks have the
    same length, so the loop raises nothing and yields one return per
    transition of the pool. *)
Theorem drained_pool_fits_the_returns_loop (p : episode_pool) (gamma : F32.t) :
  ReplayPool.__len__ p <> 0%nat ->
  exists (tr : ReplayPool.Transition (list (list (list F32.t))) (list (list F32.t))
                 (list Z) (list Z))
         (returns : list F32.t),
    fst (ReplayPool.pop_all p) = ok tr
    /\ REINFORCE.train_model_returns gamma (map F32.of_Z (ReplayPool.reward tr))
         (map F32.of_Z (ReplayPool.mask tr))
       = ok returns
    /\ length returns = ReplayPool.__len__ p.
Proof.
  intros Hne. unfold ReplayPool.__len__ in *.
  assert (Hm : ReplayPool.memory p <> []) by (destruct (ReplayPool.memory p); [|discriminate]; contradiction).
  rewrite (pop_all_nonempty p Hm).
  eexists. eexists. split; [reflexivity|]. simpl.
  destruct (train_model_returns_total gamma
              (map F32.of_Z (map ReplayPool.reward (ReplayPool.memory p)))
              (map F32.of_Z (map ReplayPool.mask (ReplayPool.memory p))))
    as [Hret Hlen].
  { rewrite !length_map. lia. }
  split; [exact Hret|]. rewrite Hlen. now rewrite !length_map.
Qed.

Lemma drained_pool_fits_the_returns_loop_witness :
  ReplayPool.__len__ (ReplayPool.mkPool (episode_rows (3, 0) safe_path)) <> 0%nat
  /\ exists tr returns,
       fst (ReplayPool.pop_all (ReplayPool.mkPool (episode_rows (3, 0) safe_path))) = ok tr
       /\ REINFORCE.train_model_returns F32.one (map F32.of_Z (ReplayPool.reward tr))
            (map F32.of_Z (ReplayPool.mask tr))
          = ok returns
       /\ length returns
          = ReplayPool.__len__ (ReplayPool.mkPool (episode_rows (3, 0) safe_path)).
Proof.
  split; [discriminate|].
  apply (drained_pool_fits_the_returns_loop
           (ReplayPool.mkPool (episode_rows (3, 0) safe_path)) F32.one).
  discriminate.
Defined.

(* ===================================================================== *)
(** * The constructor and the arrays that exist already *)
(* ===================================================================== *)

(** A loop whose body adds [k] arrays at each turn adds [k] arrays per
    element and changes none. *)
Lemma for_each_extends {A B : Type} (f : A -> store -> result (B * store)) (k : nat)
    (xs : list A) :
  (forall x h b h', f x h = ok (b, h') -> exists e, h' = h ++ e /\ length e = k) ->
  forall h bs h',
    for_each f xs h = ok (bs, h') ->
    exists e, h' = h ++ e /\ length e = (k * length xs)%nat.
Proof.
  intros Hf. induction xs as [|x xs IH]; intros h bs h' Hrun; simpl in Hrun.
  - injection Hrun as <- <-. exists []. split; [now rewrite app_nil_r|simpl; lia].
  - destruct (f x h) as [e|[b h1]] eqn:Hx; simpl in Hrun; [discriminate|].
    destruct (for_each f xs h1) as [e|[bs1 h2]] eqn:Hxs; simpl in Hrun; [discriminate|].
    injection Hrun as <- <-.
    destruct (Hf _ _ _ _ Hx) as (e1 & -> & L1).
    destruct (IH _ _ _ Hxs) as (e2 & -> & L2).
    exists (e1 ++ e2). split; [now rewrite app_assoc|].
    rewrite length_app. simpl. lia.
Qed.

Lemma cal_new_position_extends (shp : Z * Z) (clf : list (list bool))
    (a2s : gmap Z (Z * Z)) (old_pos : Z * Z) (action : Z) (h h' : store) (en : entry) :
  _cal_new_position_ shp clf a2s old_pos action h = ok (en, h') ->
  exists e, h' = h ++ e /\ length e = 1%nat.
Proof.
  rewrite cal_new_position_any_store.
  destruct (_cal_new_position_ shp clf a2s old_pos action []) as [e|[[[l rw] t] h1]] eqn:E;
    simpl; [discriminate|].
  intros [= <- <-]. exists h1. split; [reflexivity|].
  revert E. unfold _cal_new_position_.
  destruct (dict_get a2s action) as [e|shift]; simpl; [discriminate|].
  destruct (py_index clf (fst old_pos)) as [e|row]; simpl; [discriminate|].
  destruct (py_index row (snd old_pos)) as [e|on_cliff]; simpl; [discriminate|].
  destruct on_cliff, ((fst old_pos =? fst shp - 1) && (snd old_pos =? snd shp - 1));
    intros H; inversion H; reflexivity.
Qed.

(** X22.  [CliffWalking()] can be called on any store: it never raises,
    changes none of the arrays that exist already, and creates exactly
    193 new ones, the first of which is the array of [self.pos],
    holding the start cell (3,0). *)
Theorem constructor_spares_existing_arrays (h : store) :
  exists (env : CliffWalking) (ext : store),
    CliffWalking_init h = ok (env, h ++ ext)
    /\ length ext = 193%nat
    /\ pos env = length h
    /\ cur_pos (env, h ++ ext) = (3, 0)
    /\ shape env = (4, 12).
Proof.
  destruct (CliffWalking_init_total h) as (env & h' & Hinit & Hshape).
  assert (Hfacts : exists e : store,
             h' = h ++ [(3, 0)] ++ e /\ length e = 192%nat /\ pos env = length h).
  { pose proof Hinit as H. unfold CliffWalking_init in H. cbv zeta in H.
    unfold alloc in H.
    destruct (_build_transmit_tensor_ _ _ _ _ (h ++ [(fst (4, 12) - 1, 0)]))
      as [e|[table h2]] eqn:Hb; simpl in H; [discriminate|].
    injection H as <- <-.
    unfold _build_transmit_tensor_ in Hb.
    apply (for_each_extends _ 48) in Hb.
    - destruct Hb as (e & -> & Le). exists e.
      split; [now rewrite <- app_assoc|]. split; [rewrite Le; reflexivity|reflexivity].
    - intros i h0 row h1 Hrow.
      apply (for_each_extends _ 4) in Hrow; [exact Hrow|].
      intros j h3 cell h4 Hcell.
      apply (for_each_extends _ 1) in Hcell; [exact Hcell|].
      intros a h5 en h6. apply cal_new_position_extends. }
  destruct Hfacts as (e & -> & Le & Hpos).
  exists env, ([(3, 0)] ++ e).
  split; [exact Hinit|]. split; [simpl; now rewrite Le|].
  split; [exact Hpos|]. split; [|exact Hshape].
  unfold cur_pos, deref. simpl. rewrite Hpos.
  now rewrite list_lookup_middle.
Qed.

(* ===================================================================== *)
(** * The target of a terminal step *)
(* ===================================================================== *)

(** X23.  In [train_ActorCritic], whenever [take_action] returns the
    terminal flag, the TD target computed for that transition is
    exactly [+0.0], for every finite gamma and every finite value of
    the next state: the flag comes with reward 0 and gives mask 0. *)
Theorem terminal_step_target_is_zero (cs : list call) (a : Action)
    (o : ndarray * Z * bool) (gamma next_value0 : F32.t) :
  F32.is_finite gamma = true ->
  F32.is_finite next_value0 = true ->
  observe (take_action (ActInt (index_of a))
             (fst (run cs initial_state)) (snd (run cs initial_state)))
  = inr o ->
  snd o = true ->
  step_target o gamma next_value0 = F32.zero.
Proof.
  intros Hg Hv Hobs Ht.
  pose proof (Inv_run cs _ Inv_initial) as HI.
  destruct (observe_rule _ a HI) as [Hrule _].
  rewrite Hrule in Hobs. injection Hobs as <-.
  destruct (step_rule_accounts _ a (inv_grid _ HI)) as (_ & _ & _ & G4 & _).
  specialize (G4 Ht).
  clear Ht Hrule. unfold step_rule. rewrite G4.
  unfold step_target. cbn [fst snd]. unfold ActorCritic.target_plus_value.
  destruct (masked_product_is_zero gamma next_value0 Hg Hv) as [s ->].
  now destruct s.
Qed.

Lemma terminal_step_target_is_zero_witness :
  F32.is_finite F32.one = true
  /\ F32.is_finite (F32.of_Z (-7)) = true
  /\ observe (take_action (ActInt (index_of Left))
                (fst (run (map CallTakeAction (int_actions path_to_goal)) initial_state))
                (snd (run (map CallTakeAction (int_actions path_to_goal)) initial_state)))
     = inr ((3, 11), 0, true)
  /\ step_target ((3, 11), 0, true) F32.one (F32.of_Z (-7)) = F32.zero.
Proof.
  split; [reflexivity|]. split; [reflexivity|]. split; [vm_compute; reflexivity|].
  apply (terminal_step_target_is_zero (map CallTakeAction (int_actions path_to_goal))
           Left ((3, 11), 0, true) F32.one (F32.of_Z (-7)));
    [reflexivity | reflexivity | vm_compute; reflexivity | reflexivity].
Defined.

(* ===================================================================== *)
(** * The target of a transition whose next value is not finite *)
(* ===================================================================== *)

(** X25.  With mask 0 and a finite gamma, a next-state value that is
    infinite or NaN makes the TD target NaN, whatever the reward: the
    product [0 * next_value] is NaN and the sum keeps it. *)
Theorem terminal_target_not_finite (reward gamma next_value0 : F32.t) :
  F32.is_finite gamma = true ->
  F32.is_finite next_value0 = false ->
  ActorCritic.target_plus_value reward 0 gamma next_value0 = S754_nan.
Proof.
  intros Hg Hv. unfold ActorCritic.target_plus_value.
  destruct gamma as [sg|sg| |sg mg eg]; try discriminate;
    destruct next_value0 as [sv|sv| |sv mv ev]; try discriminate;
    destruct reward as [sr|sr| |sr mr er]; reflexivity.
Qed.

Lemma terminal_target_not_finite_witness :
  F32.is_finite F32.one = true
  /\ F32.is_finite F32.neg_inf = false
  /\ ActorCritic.target_plus_value (F32.of_Z (-1)) 0 F32.one F32.neg_inf = S754_nan.
Proof.
  split; [reflexivity|]. split; [reflexivity|].
  apply (terminal_target_not_finite (F32.of_Z (-1)) F32.one F32.neg_inf); reflexivity.
Defined.
